(** * StreamMux: the supervisor of per-run stream threads

    A shallow embedding of [wandb/sdk/service/streams.py]:
    [StreamRecord], [StreamAction] and [StreamMux] with its control loop,
    the action dispatch, the drain protocol [_finish_all] and the orphan
    check.  Python objects become records, the mutable supervisor becomes a
    state that is threaded through a small state/exception monad, and every
    externally visible operation (thread start, status probe, poll, sleep,
    join, completion signal, ...) is recorded in a trace.

    What the code cannot decide is supplied from outside: the behaviour of
    the worker behind a stream (its answer to the status probe, its answers
    to the successive polls, whether its thread exits), and, for each turn
    of the control loop, the clock, the process table and the actions that
    producers have put on the queue.  Loops that need not end run on fuel;
    a call that blocks for ever ends the computation in [Hang].  Clock
    readings are binary64 floats, as [time.time()] returns them. *)

From Stdlib Require Import List String ZArith QArith Bool Arith Lia.
From Stdlib Require Import PrimFloat SpecFloat FloatOps.
Import ListNotations.
Local Close Scope Q_scope.
Local Open Scope string_scope.
Local Open Scope list_scope.

(** ** Python [dict] with string keys

    Insertion ordered, as Python's: assigning to an existing key keeps its
    position, [pop] removes the key, iteration follows insertion order. *)
Module Dict.
Section Defs.
Context {V : Type}.

Definition t := list (string * V).

Definition empty : t := [].

Fixpoint get (k : string) (d : t) : option V :=
  match d with
  | [] => None
  | (k', v) :: r => if String.eqb k' k then Some v else get k r
  end.

Definition contains (k : string) (d : t) : bool :=
  match get k d with Some _ => true | None => false end.

(** [d[k] = v] *)
Fixpoint set (k : string) (v : V) (d : t) : t :=
  match d with
  | [] => [(k, v)]
  | (k', v') :: r =>
      if String.eqb k' k then (k, v) :: r else (k', v') :: set k v r
  end.

Fixpoint remove (k : string) (d : t) : t :=
  match d with
  | [] => []
  | (k', v') :: r =>
      if String.eqb k' k then r else (k', v') :: remove k r
  end.

(** The object stored under [k] is mutated in place: its new state
    replaces the old one, and nothing is inserted when [k] is absent. *)
Fixpoint replace (k : string) (v : V) (d : t) : t :=
  match d with
  | [] => []
  | (k', v') :: r =>
      if String.eqb k' k then (k, v) :: r else (k', v') :: replace k v r
  end.

(** [d.pop(k)]: [None] stands for the [KeyError]. *)
Definition pop (k : string) (d : t) : option (V * t) :=
  match get k d with
  | Some v => Some (v, remove k d)
  | None => None
  end.

Definition keys (d : t) : list string := map fst d.
Definition values (d : t) : list V := map snd d.

(** Representation invariant: a dict holds each key once. *)
Definition wf (d : t) : Prop := NoDup (keys d).
End Defs.
Arguments t : clear implicits.
End Dict.

(** ** Data model *)

(** [StreamAction._data : Any]: nothing, the settings of an [add], or the
    exit code of a [teardown]. *)
Inductive Data :=
| NoData
| SettingsData (cfg : list (string * string))
| ExitCode (c : Z).

(** The reply of [communicate_poll_exit]: [None] or a response with its
    [done] field. *)
Inductive PollResp :=
| NoResp
| Resp (done : bool).

(** [poll_exit_resp and poll_exit_resp.done] *)
Definition is_done (r : PollResp) : bool :=
  match r with
  | Resp d => d
  | NoResp => false
  end.

(** What the opaque worker behind a stream does, as far as the supervisor
    can see: its answer to the status probe, its answer to the k-th
    poll-exit request, and whether its thread ever exits. *)
Record Worker := mkWorker {
  status_reply : bool;
  poll_reply : nat -> PollResp;
  thread_exits : bool
}.

Record StreamThread := mkStreamThread {
  kw_settings : Data;
  kw_port : option Z;
  kw_user_pid : option Z;
  _target : Worker;
  started : bool
}.

(** [_oid] is the identity of the Python object; [_polls] counts the
    poll-exit requests sent through the interface so far. *)
Record StreamRecord := mkStreamRecord {
  _oid : nat;
  _thread : option StreamThread;
  _drop : bool;
  _polls : nat
}.

Record StreamAction := mkStreamAction {
  _action : string;
  _stream_id : string;
  _data : Data
}.

(** [queue.Queue]: the queued items and the count of unfinished tasks. *)
Record ActionQueue := mkActionQueue {
  items : list StreamAction;
  unfinished_tasks : nat
}.

Record StreamMux := mkStreamMux {
  _streams : Dict.t StreamRecord;
  _port : option Z;
  _pid : option Z;
  _stopped : bool;
  _action_q : ActionQueue;
  _pid_checked_ts : option float
}.

Inductive Exn :=
| KeyError (k : string)
| AssertionError (msg : string)
| ValueError (msg : string).

Inductive Event :=
| EvThreadStart (oid : nat)
| EvStatus (oid : nat) (ok : bool)
| EvRegister (sid : string) (oid : nat)
| EvUnregister (sid : string) (oid : nat)
| EvClear
| EvTermlog (msg : string)
| EvPublishExit (oid : nat) (code : Data)
| EvPollExit (oid : nat) (r : PollResp)
| EvSleep
| EvDropFlag (oid : nat)
| EvJoin (oid : nat)
| EvPidProbe (pid : Z) (alive : bool)
| EvStop
| EvGet (a : StreamAction)
| EvSetHandled (a : StreamAction)
| EvTaskDone.

(** The supervisor, the trace of what it did, and the next free object
    identity. *)
Record World := mkWorld {
  mux : StreamMux;
  trace : list Event;
  next_oid : nat
}.

(** ** The monad: state, exceptions, blocking and fuel *)

Inductive Outcome (A : Type) :=
| Ok (a : A) (w : World)
| Raise (e : Exn) (w : World)
| Hang (w : World)
| OutOfFuel (w : World).
Arguments Ok {A} a w.
Arguments Raise {A} e w.
Arguments Hang {A} w.
Arguments OutOfFuel {A} w.

Definition M (A : Type) := World -> Outcome A.

Definition ret {A} (a : A) : M A := fun w => Ok a w.

Definition bind {A B} (m : M A) (k : A -> M B) : M B :=
  fun w =>
    match m w with
    | Ok a w' => k a w'
    | Raise e w' => Raise e w'
    | Hang w' => Hang w'
    | OutOfFuel w' => OutOfFuel w'
    end.

Definition raise {A} (e : Exn) : M A := fun w => Raise e w.
Definition hang {A} : M A := fun w => Hang w.
Definition out_of_fuel {A} : M A := fun w => OutOfFuel w.

Declare Scope mux_scope.
Delimit Scope mux_scope with mux.
Notation "x <- c1 ;; c2" := (bind c1 (fun x => c2))
  (at level 61, c1 at next level, right associativity) : mux_scope.
Notation "c1 ;; c2" := (bind c1 (fun _ => c2))
  (at level 61, right associativity) : mux_scope.
Local Open Scope mux_scope.

Definition final_world {A} (o : Outcome A) : World :=
  match o with
  | Ok _ w | Raise _ w | Hang w | OutOfFuel w => w
  end.

(** The world after the events [evs] have happened. *)
Definition log (evs : list Event) (w : World) : World :=
  mkWorld (mux w) (trace w ++ evs) (next_oid w).

Definition emit (e : Event) : M unit := fun w => Ok tt (log [e] w).

Definition get_mux : M StreamMux := fun w => Ok (mux w) w.

Definition put_mux (m : StreamMux) : M unit :=
  fun w => Ok tt (mkWorld m (trace w) (next_oid w)).

Definition set_streams (d : Dict.t StreamRecord) (m : StreamMux) : StreamMux :=
  mkStreamMux d (_port m) (_pid m) (_stopped m) (_action_q m)
    (_pid_checked_ts m).

Definition set_stopped (b : bool) (m : StreamMux) : StreamMux :=
  mkStreamMux (_streams m) (_port m) (_pid m) b (_action_q m)
    (_pid_checked_ts m).

Definition set_action_q (q : ActionQueue) (m : StreamMux) : StreamMux :=
  mkStreamMux (_streams m) (_port m) (_pid m) (_stopped m) q
    (_pid_checked_ts m).

Definition set_pid_checked_ts (ts : option float) (m : StreamMux)
  : StreamMux :=
  mkStreamMux (_streams m) (_port m) (_pid m) (_stopped m) (_action_q m) ts.

(** ** StreamRecord *)

(** [StreamRecord()]: a fresh object. *)
Definition StreamRecord_init : M StreamRecord :=
  fun w =>
    Ok (mkStreamRecord (next_oid w) None false 0)
       (mkWorld (mux w) (trace w) (S (next_oid w))).

Definition communicate_status (s : StreamRecord) : bool :=
  match _thread s with
  | Some th => started th && status_reply (_target th)
  | None => false
  end.

Definition _wait_thread_active (s : StreamRecord) : M unit :=
  let result := communicate_status s in
  emit (EvStatus (_oid s) result) ;;
  if result then ret tt else raise (AssertionError "").

Definition start_thread (s : StreamRecord) (thread : StreamThread)
  : M StreamRecord :=
  let thread' :=
    mkStreamThread (kw_settings thread) (kw_port thread) (kw_user_pid thread)
      (_target thread) true in
  let s' := mkStreamRecord (_oid s) (Some thread') (_drop s) (_polls s) in
  emit (EvThreadStart (_oid s)) ;;
  _wait_thread_active s' ;;
  ret s'.

(** [join]: shut the interface and the queues, then join the thread, which
    blocks for ever when the worker never exits. *)
Definition join (s : StreamRecord) : M unit :=
  emit (EvJoin (_oid s)) ;;
  match _thread s with
  | Some th => if thread_exits (_target th) then ret tt else hang
  | None => ret tt
  end.

Definition drop (s : StreamRecord) : M StreamRecord :=
  emit (EvDropFlag (_oid s)) ;;
  ret (mkStreamRecord (_oid s) (_thread s) true (_polls s)).

Definition publish_exit (s : StreamRecord) (code : Data) : M unit :=
  emit (EvPublishExit (_oid s) code).

(** The reply to the next poll, and the record after the request. *)
Definition poll_answer (s : StreamRecord) : PollResp :=
  match _thread s with
  | Some th => poll_reply (_target th) (_polls s)
  | None => NoResp
  end.

Definition polled (s : StreamRecord) : StreamRecord :=
  mkStreamRecord (_oid s) (_thread s) (_drop s) (S (_polls s)).

Definition communicate_poll_exit (s : StreamRecord)
  : M (PollResp * StreamRecord) :=
  emit (EvPollExit (_oid s) (poll_answer s)) ;;
  ret (poll_answer s, polled s).

(** ** StreamMux *)

Definition StreamMux_init : StreamMux :=
  mkStreamMux Dict.empty None None false (mkActionQueue [] 0) None.

Definition world_init : World := mkWorld StreamMux_init [] 0.

Definition set_port (port : Z) (m : StreamMux) : StreamMux :=
  mkStreamMux (_streams m) (Some port) (_pid m) (_stopped m) (_action_q m)
    (_pid_checked_ts m).

Definition set_pid (pid : Z) (m : StreamMux) : StreamMux :=
  mkStreamMux (_streams m) (_port m) (Some pid) (_stopped m) (_action_q m)
    (_pid_checked_ts m).

(** [Queue.put] *)
Definition put (a : StreamAction) (q : ActionQueue) : ActionQueue :=
  mkActionQueue (items q ++ [a]) (S (unfinished_tasks q)).

(** The producers' side of [add_stream], [del_stream], [drop_stream] and
    [teardown]: the action they enqueue before blocking on its signal. *)
Definition add_stream (stream_id : string) (settings : Data) : StreamAction :=
  mkStreamAction "add" stream_id settings.
Definition del_stream (stream_id : string) : StreamAction :=
  mkStreamAction "del" stream_id NoData.
Definition drop_stream (stream_id : string) : StreamAction :=
  mkStreamAction "drop" stream_id NoData.
Definition teardown (exit_code : Z) : StreamAction :=
  mkStreamAction "teardown" "na" (ExitCode exit_code).

Definition stream_names (m : StreamMux) : list string := Dict.keys (_streams m).
Definition has_stream (stream_id : string) (m : StreamMux) : bool :=
  Dict.contains stream_id (_streams m).
Definition get_stream (stream_id : string) (m : StreamMux)
  : option StreamRecord := Dict.get stream_id (_streams m).

(** The truth value of a Python float, [x != 0.0], on IEEE 754 binary64
    floats. *)
Definition float_truthy (x : float) : bool :=
  negb (PrimFloat.eqb x 0%float).

Definition pid_truthy (p : option Z) : bool :=
  match p with
  | Some z => negb (Z.eqb z 0)
  | None => false
  end.

(** [self._pid_checked_ts and time_now < self._pid_checked_ts + 2] *)
Definition throttled (checked_ts : option float) (now : float) : bool :=
  match checked_ts with
  | Some ts =>
      float_truthy ts && PrimFloat.ltb now (PrimFloat.add ts 2%float)
  | None => false
  end.

(** What the environment supplies to one turn of the control loop: the
    clock, the process table, and the actions that producers have put on
    the queue by the time the bounded [get] gives up. *)
Record IterEnv := mkIterEnv {
  time_now : float;
  pid_exists : Z -> bool;
  arrivals : list StreamAction
}.

Section Supervisor.

(** The opaque worker entry point [wandb_internal], by the keyword
    arguments the thread passes to it: settings, port and user pid. *)
Variable wandb_internal : Data -> option Z -> option Z -> Worker.

Definition _process_add (action : StreamAction) : M unit :=
  stream <- StreamRecord_init ;;
  m <- get_mux ;;
  let settings := _data action in
  let thread :=
    mkStreamThread settings (_port m) (_pid m)
      (wandb_internal settings (_port m) (_pid m)) false in
  stream' <- start_thread stream thread ;;
  m <- get_mux ;;
  put_mux (set_streams (Dict.set (_stream_id action) stream' (_streams m)) m) ;;
  emit (EvRegister (_stream_id action) (_oid stream')).

(** [self._streams.pop(action._stream_id)] *)
Definition pop_stream (sid : string) : M StreamRecord :=
  m <- get_mux ;;
  match Dict.pop sid (_streams m) with
  | None => raise (KeyError sid)
  | Some (stream, rest) =>
      put_mux (set_streams rest m) ;;
      emit (EvUnregister sid (_oid stream)) ;;
      ret stream
  end.

Definition _process_del (action : StreamAction) : M unit :=
  stream <- pop_stream (_stream_id action) ;;
  join stream.

Definition _process_drop (action : StreamAction) : M unit :=
  stream <- pop_stream (_stream_id action) ;;
  stream' <- drop stream ;;
  join stream'.

(** The fan-out loop of [_finish_all]. *)
Fixpoint publish_all (l : list (string * StreamRecord)) (exit_code : Data)
  : M unit :=
  match l with
  | [] => ret tt
  | (sid, stream) :: r =>
      emit (EvTermlog ("Finishing run: " ++ sid ++ "...")) ;;
      publish_exit stream exit_code ;;
      publish_all r exit_code
  end.

(** One pass of the [for] loop over [list(streams.items())]: [snapshot]
    is the materialised list, [streams] the dict being modified. *)
Fixpoint poll_cycle (snapshot : list (string * StreamRecord))
    (streams : Dict.t StreamRecord) (streams_to_join : list StreamRecord)
  : M (Dict.t StreamRecord * list StreamRecord) :=
  match snapshot with
  | [] => ret (streams, streams_to_join)
  | (sid, stream) :: r =>
      p <- communicate_poll_exit stream ;;
      let '(poll_exit_resp, stream') := p in
      q <- (if is_done poll_exit_resp
            then match Dict.pop sid streams with
                 | Some (_, rest) => ret (rest, streams_to_join ++ [stream'])
                 | None => raise (KeyError sid)
                 end
            else ret (Dict.replace sid stream' streams, streams_to_join)) ;;
      emit EvSleep ;;
      poll_cycle r (fst q) (snd q)
  end.

(** [while streams: ...], one unit of fuel per pass. *)
Fixpoint poll_loop (fuel : nat) (streams : Dict.t StreamRecord)
    (streams_to_join : list StreamRecord) : M (list StreamRecord) :=
  match streams with
  | [] => ret streams_to_join
  | _ :: _ =>
      match fuel with
      | O => out_of_fuel
      | S fuel' =>
          p <- poll_cycle streams streams streams_to_join ;;
          poll_loop fuel' (fst p) (snd p)
      end
  end.

Fixpoint join_all (l : list StreamRecord) : M unit :=
  match l with
  | [] => ret tt
  | stream :: r => join stream ;; join_all r
  end.

Definition _finish_all (fuel : nat) (streams : Dict.t StreamRecord)
    (exit_code : Data) : M unit :=
  match streams with
  | [] => ret tt
  | _ :: _ =>
      publish_all streams exit_code ;;
      streams_to_join <- poll_loop fuel streams [] ;;
      join_all streams_to_join ;;
      emit (EvTermlog "Done!")
  end.

Definition _process_teardown (fuel : nat) (action : StreamAction) : M unit :=
  let exit_code := _data action in
  m <- get_mux ;;
  let streams_copy := _streams m in
  _finish_all fuel streams_copy exit_code ;;
  m <- get_mux ;;
  put_mux (set_streams Dict.empty m) ;;
  emit EvClear ;;
  m <- get_mux ;;
  put_mux (set_stopped true m) ;;
  emit EvStop.

Definition _process_action (fuel : nat) (action : StreamAction) : M unit :=
  if String.eqb (_action action) "add" then _process_add action
  else if String.eqb (_action action) "del" then _process_del action
  else if String.eqb (_action action) "drop" then _process_drop action
  else if String.eqb (_action action) "teardown"
       then _process_teardown fuel action
  else raise (AssertionError ("Unsupported action: " ++ _action action)).

Definition _check_orphaned (now : float) (table : Z -> bool) : M bool :=
  m <- get_mux ;;
  match _pid m with
  | None => ret false
  | Some pid =>
      if negb (pid_truthy (Some pid)) then ret false
      else
        if throttled (_pid_checked_ts m) now then ret false
        else
          put_mux (set_pid_checked_ts (Some now) m) ;;
          emit (EvPidProbe pid (table pid)) ;;
          ret (negb (table pid))
  end.

(** Producers put their actions while the loop is busy or waiting. *)
Definition enqueue (l : list StreamAction) : M unit :=
  m <- get_mux ;;
  put_mux (set_action_q (fold_left (fun q a => put a q) l (_action_q m)) m).

(** [self._action_q.get(timeout=1)]: [None] stands for [queue.Empty]. *)
Definition queue_get : M (option StreamAction) :=
  m <- get_mux ;;
  match items (_action_q m) with
  | [] => ret None
  | a :: r =>
      put_mux (set_action_q
                 (mkActionQueue r (unfinished_tasks (_action_q m))) m) ;;
      emit (EvGet a) ;;
      ret (Some a)
  end.

Definition set_handled (a : StreamAction) : M unit := emit (EvSetHandled a).

(** [Queue.task_done]: one task less is unfinished; with none unfinished
    the call raises. *)
Definition task_done : M unit :=
  m <- get_mux ;;
  match unfinished_tasks (_action_q m) with
  | O => raise (ValueError "task_done() called too many times")
  | S n =>
      put_mux (set_action_q (mkActionQueue (items (_action_q m)) n) m) ;;
      emit EvTaskDone
  end.

(** [self._action_q.join()]: the loop is the only consumer, so unfinished
    tasks stay unfinished and the call blocks for ever. *)
Definition queue_join : M unit :=
  m <- get_mux ;;
  if Nat.eqb (unfinished_tasks (_action_q m)) 0 then ret tt else hang.

(** The first half of a turn of the [while] loop: the orphan check and
    the bounded [get]. *)
Definition loop_head (e : IterEnv) : M (option StreamAction) :=
  orphaned <- _check_orphaned (time_now e) (pid_exists e) ;;
  (if orphaned
   then m <- get_mux ;; put_mux (set_stopped true m) ;; emit EvStop
   else ret tt) ;;
  enqueue (arrivals e) ;;
  queue_get.

(** The body of the [while] loop of [_loop]. *)
Definition loop_body (fuel : nat) (e : IterEnv) : M unit :=
  got <- loop_head e ;;
  match got with
  | None => ret tt
  | Some action =>
      _process_action fuel action ;;
      set_handled action ;;
      task_done
  end.

(** [_loop]: one element of the schedule per turn of the [while]; the
    actions that arrive once the stop flag is up are on the queue when
    the final [join] is reached. *)
Fixpoint _loop (fuel : nat) (sched : list IterEnv) : M unit :=
  fun w =>
    match sched with
    | [] => if _stopped (mux w) then queue_join w else OutOfFuel w
    | e :: rest =>
        if _stopped (mux w) then (enqueue (arrivals e) ;; queue_join) w
        else (loop_body fuel e ;; _loop fuel rest) w
    end.

Definition loop (fuel : nat) (sched : list IterEnv) : M unit :=
  _loop fuel sched.

End Supervisor.

(** ** What the drain protocol computes

    Pure descriptions of one polling pass and of the whole polling loop, to
    which the monadic code is related below. *)

(** The contexts still pending after one pass over [l]. *)
Fixpoint survivors (l : list (string * StreamRecord))
  : list (string * StreamRecord) :=
  match l with
  | [] => []
  | (sid, s) :: r =>
      if is_done (poll_answer s) then survivors r
      else (sid, polled s) :: survivors r
  end.

(** The contexts that reported done during one pass over [l]. *)
Fixpoint finished (l : list (string * StreamRecord)) : list StreamRecord :=
  match l with
  | [] => []
  | (sid, s) :: r =>
      if is_done (poll_answer s) then polled s :: finished r
      else finished r
  end.

Fixpoint cycle_events (l : list (string * StreamRecord)) : list Event :=
  match l with
  | [] => []
  | (sid, s) :: r =>
      EvPollExit (_oid s) (poll_answer s) :: EvSleep :: cycle_events r
  end.

(** Whether [fuel] passes empty the pending set. *)
Fixpoint drained (fuel : nat) (l : list (string * StreamRecord)) : bool :=
  match l with
  | [] => true
  | _ :: _ =>
      match fuel with
      | O => false
      | S fuel' => drained fuel' (survivors l)
      end
  end.

Fixpoint drain_events (fuel : nat) (l : list (string * StreamRecord))
  : list Event :=
  match l with
  | [] => []
  | _ :: _ =>
      match fuel with
      | O => []
      | S fuel' => cycle_events l ++ drain_events fuel' (survivors l)
      end
  end.

Fixpoint drain_joins (fuel : nat) (l : list (string * StreamRecord))
  : list StreamRecord :=
  match l with
  | [] => []
  | _ :: _ =>
      match fuel with
      | O => []
      | S fuel' => finished l ++ drain_joins fuel' (survivors l)
      end
  end.

Fixpoint publish_events (l : list (string * StreamRecord)) (code : Data)
  : list Event :=
  match l with
  | [] => []
  | (sid, s) :: r =>
      EvTermlog ("Finishing run: " ++ sid ++ "...")
        :: EvPublishExit (_oid s) code :: publish_events r code
  end.

Definition join_events (l : list StreamRecord) : list Event :=
  map (fun s => EvJoin (_oid s)) l.

(** [join] returns: the worker's thread exits. *)
Definition joinable (s : StreamRecord) : bool :=
  match _thread s with
  | Some th => thread_exits (_target th)
  | None => true
  end.

(** The context answers done to one of its next [n] polls. *)
Fixpoint done_within (n : nat) (s : StreamRecord) : bool :=
  match n with
  | O => false
  | S n' => is_done (poll_answer s) || done_within n' (polled s)
  end.

(** The context never answers done, however often it is polled. *)
Definition never_done (s : StreamRecord) : Prop :=
  forall n, done_within n s = false.

Definition count_sleeps (evs : list Event) : nat :=
  List.length
    (filter (fun e => match e with EvSleep => true | _ => false end) evs).

Definition count_polls (evs : list Event) : nat :=
  List.length
    (filter (fun e => match e with EvPollExit _ _ => true | _ => false end)
       evs).

Definition is_publish (e : Event) : bool :=
  match e with EvTermlog _ | EvPublishExit _ _ => true | _ => false end.

Definition is_poll_or_sleep (e : Event) : bool :=
  match e with EvPollExit _ _ | EvSleep => true | _ => false end.

(** The events an action's processing can produce before a teardown
    clears the map and raises the stop flag: nothing of the queue, the
    completion signal or the orphan check. *)
Definition is_action_effect (e : Event) : bool :=
  match e with
  | EvGet _ | EvSetHandled _ | EvTaskDone | EvPidProbe _ _ | EvStop
  | EvClear => false
  | _ => true
  end.

Definition is_drain_event (e : Event) : bool :=
  match e with
  | EvTermlog _ | EvPublishExit _ _ | EvPollExit _ _ | EvSleep | EvJoin _ =>
      true
  | _ => false
  end.

Definition is_get (e : Event) : bool :=
  match e with EvGet _ => true | _ => false end.

Definition is_set_handled (e : Event) : bool :=
  match e with EvSetHandled _ => true | _ => false end.

Definition is_stop (e : Event) : bool :=
  match e with EvStop => true | _ => false end.

Definition count_gets (evs : list Event) : nat :=
  List.length (filter is_get evs).

Definition count_set_handled (evs : list Event) : nat :=
  List.length (filter is_set_handled evs).

(** A computation that only appends events of the kind [P] to the trace and
    leaves the supervisor and the object counter alone, however it ends. *)
Definition only_logs {A} (P : Event -> bool) (m : M A) : Prop :=
  forall w, exists evs,
    final_world (m w) = log evs w /\ forallb P evs = true.

(** ** Sample workers and snapshots *)

(** A worker that answers the status probe and reports done from its
    [k]-th poll on. *)
Definition prompt_worker (k : nat) : Worker :=
  mkWorker true (fun n => Resp (Nat.leb k n)) true.

(** A worker that answers the status probe and never reports done. *)
Definition stubborn_worker : Worker :=
  mkWorker true (fun _ => Resp false) true.

(** A worker that does not answer the status probe. *)
Definition mute_worker : Worker :=
  mkWorker false (fun _ => NoResp) true.

Definition running_record (oid : nat) (settings : Data) (wk : Worker)
  : StreamRecord :=
  mkStreamRecord oid (Some (mkStreamThread settings None None wk true)) false 0.

(** An entry point whose worker comes up for settings and stays mute for
    anything else. *)
Definition sample_internal (settings : Data) (port pid : option Z) : Worker :=
  match settings with
  | SettingsData _ => prompt_worker 1
  | _ => mute_worker
  end.

Definition cfg1 : Data := SettingsData [("project", "one")].
Definition cfg2 : Data := SettingsData [("project", "two")].

Definition one_pending : Dict.t StreamRecord :=
  [("a", running_record 0 cfg1 (prompt_worker 1))].

Definition two_pending : Dict.t StreamRecord :=
  [("a", running_record 0 cfg1 (prompt_worker 1));
   ("b", running_record 1 cfg2 (prompt_worker 2))].

Definition with_stubborn : Dict.t StreamRecord :=
  [("a", running_record 0 cfg1 (prompt_worker 1));
   ("b", running_record 1 cfg2 stubborn_worker)].

Definition world_with (d : Dict.t StreamRecord) : World :=
  mkWorld (set_streams d StreamMux_init) [] (List.length d).

(** The parts of the supervisor that processing an action never touches. *)
Definition same_config (m m' : StreamMux) : Prop :=
  _port m' = _port m /\ _pid m' = _pid m /\ _action_q m' = _action_q m
  /\ _pid_checked_ts m' = _pid_checked_ts m.

(** How processing [action] in the world [w] can end: it touches nothing
    but the map and the stop flag, its events are effects of the action,
    and the stop flag moves only at the very end of a teardown that
    returns, right after the map is cleared. *)
Definition action_outcome_shape (action : StreamAction) (w : World)
    (o : Outcome unit) : Prop :=
  same_config (mux w) (mux (final_world o))
  /\ exists evs,
       forallb is_action_effect evs = true
       /\ ((trace (final_world o) = trace w ++ evs
            /\ _stopped (mux (final_world o)) = _stopped (mux w))
           \/ (_action action = "teardown"
               /\ o = Ok tt (final_world o)
               /\ trace (final_world o) = trace w ++ evs ++ [EvClear; EvStop]
               /\ _stopped (mux (final_world o)) = true
               /\ _streams (mux (final_world o)) = [])).

(** A turn of the loop with nothing to detect and the given arrivals. *)
Definition calm (l : list StreamAction) : IterEnv :=
  mkIterEnv 1%float (fun _ => true) l.

Definition is_clear (e : Event) : bool :=
  match e with EvClear => true | _ => false end.

(** What follows the first event of the kind [P]. *)
Fixpoint after_first (P : Event -> bool) (evs : list Event) : list Event :=
  match evs with
  | [] => []
  | e :: r => if P e then r else after_first P r
  end.

(** A supervisor that was told its owner's pid. *)
Definition world_with_pid (pid : Z) : World :=
  mkWorld (set_pid pid StreamMux_init) [] 0.

(** A turn of the loop at time [now] in which no process is alive. *)
Definition orphaned_turn (now : float) (l : list StreamAction) : IterEnv :=
  mkIterEnv now (fun _ => false) l.

Definition is_probe (e : Event) : bool :=
  match e with EvPidProbe _ _ => true | _ => false end.

(** The events of the first half of a turn: the orphan check either stays
    silent, or probes and finds the owner alive, or probes, finds it gone
    and raises the stop flag. *)
Inductive orphan_events : list Event -> Prop :=
| orphan_silent : orphan_events []
| orphan_alive pid : orphan_events [EvPidProbe pid true]
| orphan_gone pid : orphan_events [EvPidProbe pid false; EvStop].

Definition got_events (got : option StreamAction) : list Event :=
  match got with
  | Some a => [EvGet a]
  | None => []
  end.

Definition has_stop (evs : list Event) : bool := existsb is_stop evs.

(** The events of the second half of a turn, and whether they raise the
    stop flag: nothing was queued; or an action was taken off the queue and
    its processing did not return; or it returned and the completion signal
    was set; or it was a teardown that returned, with the clearing of the
    map and the stop flag before the completion signal.  The last two are
    the turns of a queue that counts no unfinished task, where [task_done]
    raises. *)
Inductive action_events : list Event -> bool -> Prop :=
| turn_idle : action_events [] false
| turn_failed a effs :
    forallb is_action_effect effs = true ->
    action_events (EvGet a :: effs) false
| turn_handled a effs :
    forallb is_action_effect effs = true ->
    action_events (EvGet a :: effs ++ [EvSetHandled a; EvTaskDone]) false
| turn_teardown a effs :
    _action a = "teardown" ->
    forallb is_action_effect effs = true ->
    action_events
      (EvGet a :: effs ++ [EvClear; EvStop; EvSetHandled a; EvTaskDone]) true
| turn_overdone a effs :
    forallb is_action_effect effs = true ->
    action_events (EvGet a :: effs ++ [EvSetHandled a]) false
| turn_teardown_overdone a effs :
    _action a = "teardown" ->
    forallb is_action_effect effs = true ->
    action_events (EvGet a :: effs ++ [EvClear; EvStop; EvSetHandled a]) true.

(** No event of [evs] is of the kind [P]. *)
Definition none (P : Event -> bool) (evs : list Event) : bool :=
  forallb (fun e => negb (P e)) evs.

(** The action queue when the loop reaches its final [join]: the actions
    that arrived since the last turn are on it. *)
Definition final_queue (sched : list IterEnv) (q : ActionQueue) : ActionQueue :=
  match sched with
  | [] => q
  | e :: _ =>
      mkActionQueue (items q ++ arrivals e)
        (unfinished_tasks q + List.length (arrivals e))
  end.


(** Every registered context has a started worker that acknowledged the
    status probe. *)
Definition all_acknowledged (m : StreamMux) : bool :=
  forallb (fun p => communicate_status (snd p)) (_streams m).

Definition acknowledged (d : Dict.t StreamRecord) : Prop :=
  forallb (fun p => communicate_status (snd p)) d = true.

(** The queue counts at least its queued items as unfinished. *)
Definition queue_ok (q : ActionQueue) : Prop :=
  List.length (items q) <= unfinished_tasks q.



(** The message that closes a drain of a snapshot that was not empty. *)
Definition done_events (l : Dict.t StreamRecord) : list Event :=
  match l with
  | [] => []
  | _ :: _ => [EvTermlog "Done!"]
  end.

(** What [_finish_all] does to the snapshot [l] when it returns: the
    finish messages, the polling passes, the joins, the closing message. *)
Definition finish_events (fuel : nat) (l : Dict.t StreamRecord) (code : Data)
  : list Event :=
  publish_events l code ++ drain_events fuel l
    ++ join_events (drain_joins fuel l) ++ done_events l.

(** ** More of the supervisor's surface *)

(** The actions taken off the queue, in the order of the trace. *)
Fixpoint gets_of (evs : list Event) : list StreamAction :=
  match evs with
  | [] => []
  | EvGet a :: r => a :: gets_of r
  | _ :: r => gets_of r
  end.

Definition got_list (got : option StreamAction) : list StreamAction :=
  match got with
  | Some a => [a]
  | None => []
  end.

(** The operation kinds that [_process_action] dispatches on. *)
Definition supported_kind (k : string) : bool :=
  String.eqb k "add" || String.eqb k "del" || String.eqb k "drop"
  || String.eqb k "teardown".

(** The world after [sid]'s context [s] was popped and [evs] happened. *)
Definition popped_world (sid : string) (evs : list Event) (w : World) : World :=
  log evs
    (mkWorld (set_streams (Dict.remove sid (_streams (mux w))) (mux w))
       (trace w) (next_oid w)).

(** The context an add creates in the world [w]. *)
Definition new_stream (wandb_internal : Data -> option Z -> option Z -> Worker)
    (settings : Data) (w : World) : StreamRecord :=
  mkStreamRecord (next_oid w)
    (Some (mkStreamThread settings (_port (mux w)) (_pid (mux w))
             (wandb_internal settings (_port (mux w)) (_pid (mux w))) true))
    false 0.

(** A turn in which nothing arrives. *)
Definition quiet_turn (e : IterEnv) : Prop := arrivals e = [].

(** The arrivals of the first [n] turns of a schedule. *)
Definition arrived (n : nat) (sched : list IterEnv) : list StreamAction :=
  List.concat (map arrivals (firstn n sched)).

(** A supervisor with two registered streams that was told its owner's
    pid. *)
Definition owned_world (pid : Z) : World :=
  mkWorld (set_pid pid (set_streams two_pending StreamMux_init)) [] 2.

(** ** Facts about dicts *)
Module DictFacts.
Section Facts.
Context {V : Type}.
Implicit Types (d pre r : Dict.t V) (k : string) (v : V).


Lemma get_in k d : In k (Dict.keys d) -> exists v, Dict.get k d = Some v.
Proof.
  induction d as [|[k' v'] d IH]; simpl; intros H; [contradiction|].
  destruct (String.eqb_spec k' k) as [->|Hne]; [eauto|].
  destruct H as [H|H]; [contradiction|auto].
Qed.

Lemma get_mid k v pre r :
  ~ In k (Dict.keys pre) -> Dict.get k (pre ++ (k, v) :: r) = Some v.
Proof.
  induction pre as [|[k' v'] pre IH]; simpl; intros H.
  - now rewrite String.eqb_refl.
  - destruct (String.eqb_spec k' k) as [->|Hne].
    + exfalso. apply H. now left.
    + apply IH. intros Hin. apply H. now right.
Qed.

Lemma remove_mid k v pre r :
  ~ In k (Dict.keys pre) -> Dict.remove k (pre ++ (k, v) :: r) = pre ++ r.
Proof.
  induction pre as [|[k' v'] pre IH]; simpl; intros H.
  - now rewrite String.eqb_refl.
  - destruct (String.eqb_spec k' k) as [->|Hne].
    + exfalso. apply H. now left.
    + f_equal. apply IH. intros Hin. apply H. now right.
Qed.

Lemma pop_mid k v pre r :
  ~ In k (Dict.keys pre) ->
  Dict.pop k (pre ++ (k, v) :: r) = Some (v, pre ++ r).
Proof.
  intros H. unfold Dict.pop. now rewrite get_mid, remove_mid.
Qed.

Lemma replace_mid k v v' pre r :
  ~ In k (Dict.keys pre) ->
  Dict.replace k v' (pre ++ (k, v) :: r) = pre ++ (k, v') :: r.
Proof.
  induction pre as [|[k' v0] pre IH]; simpl; intros H.
  - now rewrite String.eqb_refl.
  - destruct (String.eqb_spec k' k) as [->|Hne].
    + exfalso. apply H. now left.
    + f_equal. apply IH. intros Hin. apply H. now right.
Qed.

Lemma keys_app d r : Dict.keys (d ++ r) = Dict.keys d ++ Dict.keys r.
Proof. apply map_app. Qed.

Lemma wf_mid_notin k v pre r :
  Dict.wf (pre ++ (k, v) :: r) -> ~ In k (Dict.keys pre).
Proof.
  unfold Dict.wf. rewrite keys_app. simpl. intros H Hin.
  apply NoDup_remove_2 in H. apply H. apply in_or_app. now left.
Qed.

Lemma wf_mid_drop k v pre r :
  Dict.wf (pre ++ (k, v) :: r) -> Dict.wf (pre ++ r).
Proof.
  unfold Dict.wf. rewrite !keys_app. simpl. apply NoDup_remove_1.
Qed.

Lemma get_set_same k v d : Dict.get k (Dict.set k v d) = Some v.
Proof.
  induction d as [|[k' v'] d IH]; simpl.
  - now rewrite String.eqb_refl.
  - destruct (String.eqb_spec k' k) as [->|Hne]; simpl.
    + now rewrite String.eqb_refl.
    + destruct (String.eqb_spec k' k); [contradiction|exact IH].
Qed.

Lemma get_set_other k k' v d :
  k' <> k -> Dict.get k' (Dict.set k v d) = Dict.get k' d.
Proof.
  intros Hne. induction d as [|[k0 v0] d IH]; simpl.
  - destruct (String.eqb_spec k k'); [congruence|reflexivity].
  - destruct (String.eqb_spec k0 k) as [->|Hne0]; simpl.
    + destruct (String.eqb_spec k k'); [congruence|reflexivity].
    + destruct (String.eqb_spec k0 k'); [reflexivity|exact IH].
Qed.

Lemma keys_set_in k v d :
  In k (Dict.keys d) -> Dict.keys (Dict.set k v d) = Dict.keys d.
Proof.
  induction d as [|[k' v'] d IH]; simpl; intros H; [contradiction|].
  destruct (String.eqb_spec k' k) as [->|Hne]; simpl; [reflexivity|].
  f_equal. apply IH. destruct H; [contradiction|assumption].
Qed.

Lemma keys_set_notin k v d :
  ~ In k (Dict.keys d) -> Dict.keys (Dict.set k v d) = Dict.keys d ++ [k].
Proof.
  induction d as [|[k' v'] d IH]; simpl; intros H; [reflexivity|].
  destruct (String.eqb_spec k' k) as [->|Hne]; simpl.
  - exfalso. apply H. now left.
  - f_equal. apply IH. intros Hin. apply H. now right.
Qed.



Lemma contains_false_notin k d :
  Dict.contains k d = false -> ~ In k (Dict.keys d).
Proof.
  unfold Dict.contains. intros H Hin.
  destruct (get_in k d Hin) as [v Hv]. now rewrite Hv in H.
Qed.

Lemma contains_true_in k d :
  Dict.contains k d = true -> In k (Dict.keys d).
Proof.
  unfold Dict.contains. induction d as [|[k' v'] d IH]; simpl.
  - discriminate.
  - destruct (String.eqb_spec k' k) as [->|Hne]; [now left|].
    intros H. right. now apply IH.
Qed.
End Facts.
End DictFacts.

(** ** The monad and the trace *)

Lemma log_nil w : log [] w = w.
Proof. destruct w. unfold log. simpl. now rewrite app_nil_r. Qed.

Lemma log_log evs1 evs2 w : log evs2 (log evs1 w) = log (evs1 ++ evs2) w.
Proof. unfold log. simpl. now rewrite app_assoc. Qed.


Lemma trace_log evs w : trace (log evs w) = trace w ++ evs.
Proof. reflexivity. Qed.

(** ** The drain protocol *)

Lemma survivors_keys_incl l k :
  In k (Dict.keys (survivors l)) -> In k (Dict.keys l).
Proof.
  induction l as [|[sid s] l IH]; simpl; [tauto|].
  destruct (is_done (poll_answer s)); simpl; intuition.
Qed.

Lemma survivors_wf l : Dict.wf l -> Dict.wf (survivors l).
Proof.
  unfold Dict.wf. induction l as [|[sid s] l IH]; simpl; intros H.
  - constructor.
  - inversion H as [|? ? Hnin Hnd]; subst.
    destruct (is_done (poll_answer s)); simpl; [auto|].
    constructor; [|auto].
    intros Hin. apply Hnin. now apply survivors_keys_incl.
Qed.

(** One pass over the materialised items of a well-formed dict polls each
    pending context once and sleeps after each poll. *)
Lemma poll_cycle_spec l : forall pre tj w,
  Dict.wf (pre ++ l) ->
  poll_cycle l (pre ++ l) tj w
  = Ok (pre ++ survivors l, tj ++ finished l) (log (cycle_events l) w).
Proof.
  induction l as [|[sid s] l IH]; intros pre tj w Hwf; simpl.
  - unfold ret. now rewrite !app_nil_r, log_nil.
  - pose proof (DictFacts.wf_mid_notin _ _ _ _ Hwf) as Hnin.
    unfold bind at 1. unfold communicate_poll_exit, bind, emit, ret. simpl.
    destruct (is_done (poll_answer s)) eqn:Hd.
    + rewrite DictFacts.pop_mid by exact Hnin. simpl.
      rewrite IH by (eapply DictFacts.wf_mid_drop; exact Hwf).
      rewrite !log_log. simpl. now rewrite <- app_assoc.
    + rewrite DictFacts.replace_mid by exact Hnin. simpl.
      replace (pre ++ (sid, polled s) :: l)
        with ((pre ++ [(sid, polled s)]) ++ l)
        by (now rewrite <- app_assoc).
      rewrite IH.
      * rewrite !log_log. simpl. now rewrite <- app_assoc.
      * unfold Dict.wf in *. rewrite <- app_assoc. simpl.
        rewrite DictFacts.keys_app in *. exact Hwf.
Qed.

Lemma poll_loop_spec fuel : forall l tj w,
  Dict.wf l ->
  poll_loop fuel l tj w
  = if drained fuel l
    then Ok (tj ++ drain_joins fuel l) (log (drain_events fuel l) w)
    else OutOfFuel (log (drain_events fuel l) w).
Proof.
  induction fuel as [|fuel IH]; intros l tj w Hwf.
  - destruct l; simpl.
    + unfold ret. now rewrite app_nil_r, log_nil.
    + unfold out_of_fuel. now rewrite log_nil.
  - destruct l as [|p l].
    + simpl. unfold ret. now rewrite app_nil_r, log_nil.
    + remember (p :: l) as d eqn:Ed.
      assert (Hstep : poll_loop (S fuel) d tj w
                      = (q <- poll_cycle d d tj ;;
                         poll_loop fuel (fst q) (snd q)) w)
        by (subst d; reflexivity).
      rewrite Hstep. unfold bind.
      pose proof (poll_cycle_spec d [] tj w Hwf) as Hc.
      rewrite !app_nil_l in Hc. rewrite Hc. simpl fst. simpl snd.
      rewrite IH by (now apply survivors_wf).
      assert (Hd : drained (S fuel) d = drained fuel (survivors d))
        by (subst d; reflexivity).
      assert (He : drain_events (S fuel) d
                   = cycle_events d ++ drain_events fuel (survivors d))
        by (subst d; reflexivity).
      assert (Hj : drain_joins (S fuel) d
                   = finished d ++ drain_joins fuel (survivors d))
        by (subst d; reflexivity).
      rewrite Hd, He, Hj, !log_log, <- app_assoc. reflexivity.
Qed.

Lemma publish_all_spec l code w :
  publish_all l code w = Ok tt (log (publish_events l code) w).
Proof.
  revert w. induction l as [|[sid s] l IH]; intros w; simpl.
  - unfold ret. now rewrite log_nil.
  - unfold bind, emit, publish_exit, emit. rewrite IH, !log_log. reflexivity.
Qed.

Lemma join_all_ok l : forall w,
  forallb joinable l = true ->
  join_all l w = Ok tt (log (join_events l) w).
Proof.
  induction l as [|s l IH]; intros w H; simpl.
  - unfold ret. now rewrite log_nil.
  - simpl in H. apply andb_prop in H as [Hs Hl].
    unfold bind, join, bind, emit. unfold joinable in Hs.
    destruct (_thread s) as [th|].
    + rewrite Hs. unfold ret. rewrite IH by exact Hl.
      now rewrite log_log.
    + unfold ret. rewrite IH by exact Hl. now rewrite log_log.
Qed.

Lemma join_all_inv l : forall w w',
  join_all l w = Ok tt w' ->
  w' = log (join_events l) w /\ forallb joinable l = true.
Proof.
  induction l as [|s l IH]; intros w w' H; simpl in *.
  - unfold ret in H. inversion H. now rewrite log_nil.
  - unfold bind, join, bind, emit in H. unfold joinable at 1.
    destruct (_thread s) as [th|].
    + destruct (thread_exits (_target th)); [|discriminate].
      unfold ret in H. apply IH in H as [-> Hl].
      rewrite log_log. now split.
    + unfold ret in H. apply IH in H as [-> Hl].
      rewrite log_log. now split.
Qed.

Lemma is_done_true r : is_done r = true -> r = Resp true.
Proof. destruct r as [|[|]]; simpl; congruence. Qed.

Lemma never_done_step s :
  never_done s -> is_done (poll_answer s) = false /\ never_done (polled s).
Proof.
  intros H. split.
  - specialize (H 1). simpl in H. now apply orb_false_elim in H.
  - intros n. specialize (H (S n)). simpl in H.
    now apply orb_false_elim in H.
Qed.

Lemma in_cycle_events l sid s :
  In (sid, s) l -> In (EvPollExit (_oid s) (poll_answer s)) (cycle_events l).
Proof.
  induction l as [|[sid' s'] l IH]; simpl; [tauto|].
  intros [H|H].
  - inversion H; subst. now left.
  - right. right. auto.
Qed.

Lemma in_pending_split l sid s :
  In (sid, s) l ->
  (is_done (poll_answer s) = true /\ In (polled s) (finished l))
  \/ (is_done (poll_answer s) = false /\ In (sid, polled s) (survivors l)).
Proof.
  induction l as [|[sid' s'] l IH]; simpl; [tauto|].
  intros [H|H].
  - inversion H; subst.
    destruct (is_done (poll_answer s)) eqn:E; [left|right]; split; auto;
      now left.
  - destruct (IH H) as [[E Hin]|[E Hin]]; [left|right]; split; auto;
      destruct (is_done (poll_answer s')); simpl; auto.
Qed.

Lemma in_finished_inv l j :
  In j (finished l) ->
  exists sid s, In (sid, s) l /\ j = polled s /\ is_done (poll_answer s) = true.
Proof.
  induction l as [|[sid' s'] l IH]; simpl; [tauto|].
  destruct (is_done (poll_answer s')) eqn:E; simpl.
  - intros [H|H].
    + exists sid', s'. repeat split; auto.
    + destruct (IH H) as (sid & s & Hin & Hj & Hd). exists sid, s. auto.
  - intros H. destruct (IH H) as (sid & s & Hin & Hj & Hd). exists sid, s. auto.
Qed.

Lemma in_survivors_inv l sid s' :
  In (sid, s') (survivors l) ->
  exists s, In (sid, s) l /\ s' = polled s /\ is_done (poll_answer s) = false.
Proof.
  induction l as [|[sid0 s0] l IH]; simpl; [tauto|].
  destruct (is_done (poll_answer s0)) eqn:E; simpl.
  - intros H. destruct (IH H) as (s & Hin & Hs & Hd). exists s. auto.
  - intros [H|H].
    + inversion H; subst. exists s0. auto.
    + destruct (IH H) as (s & Hin & Hs & Hd). exists s. auto.
Qed.

(** A context that never answers done keeps the polling loop going. *)
Lemma never_done_not_drained fuel : forall l sid s,
  In (sid, s) l -> never_done s -> drained fuel l = false.
Proof.
  induction fuel as [|fuel IH]; intros l sid s Hin Hn.
  - destruct l; [contradiction|reflexivity].
  - destruct l as [|p l]; [contradiction|].
    change (drained fuel (survivors (p :: l)) = false).
    destruct (never_done_step s Hn) as [Hd Hn'].
    destruct (in_pending_split _ _ _ Hin) as [[E _]|[_ Hs]]; [congruence|].
    eapply IH; eauto.
Qed.

(** Contexts that all answer done within [n] polls are drained by [n]
    passes. *)
Lemma done_within_drained n : forall l,
  forallb (fun p => done_within n (snd p)) l = true -> drained n l = true.
Proof.
  induction n as [|n IH]; intros l H.
  - destruct l; [reflexivity|]. simpl in H. discriminate.
  - destruct l as [|p l]; [reflexivity|].
    change (drained n (survivors (p :: l)) = true).
    apply IH. apply forallb_forall. intros [sid s'] Hin. simpl.
    destruct (in_survivors_inv _ _ _ Hin) as (s & Hl & -> & Hd).
    rewrite forallb_forall in H. specialize (H _ Hl). simpl in H.
    now rewrite Hd in H.
Qed.


(** When the loop ends, every context of its input has answered done. *)
Lemma drained_all_reported fuel : forall l sid s,
  drained fuel l = true -> In (sid, s) l ->
  In (EvPollExit (_oid s) (Resp true)) (drain_events fuel l).
Proof.
  induction fuel as [|fuel IH]; intros l sid s Hd Hin.
  - destruct l; [contradiction|discriminate].
  - destruct l as [|p l]; [contradiction|].
    change (In (EvPollExit (_oid s) (Resp true))
              (cycle_events (p :: l) ++ drain_events fuel (survivors (p :: l)))).
    change (drained fuel (survivors (p :: l)) = true) in Hd.
    apply in_or_app.
    destruct (in_pending_split _ _ _ Hin) as [[E _]|[_ Hs]].
    + left. rewrite <- (is_done_true _ E). eapply in_cycle_events; eauto.
    + right. apply (IH _ _ _ Hd Hs).
Qed.

(** Only contexts that answered done are put on the list to join. *)
Lemma drain_joins_reported fuel : forall l j,
  In j (drain_joins fuel l) ->
  In (EvPollExit (_oid j) (Resp true)) (drain_events fuel l).
Proof.
  induction fuel as [|fuel IH]; intros l j Hin.
  - destruct l; contradiction.
  - destruct l as [|p l]; [contradiction|].
    change (In (EvPollExit (_oid j) (Resp true))
              (cycle_events (p :: l) ++ drain_events fuel (survivors (p :: l)))).
    change (In j (finished (p :: l) ++ drain_joins fuel (survivors (p :: l))))
      in Hin.
    apply in_or_app. apply in_app_or in Hin as [Hin|Hin].
    + left. destruct (in_finished_inv _ _ Hin) as (sid & s & Hl & -> & E).
      change (_oid (polled s)) with (_oid s).
      rewrite <- (is_done_true _ E). eapply in_cycle_events; eauto.
    + right. now apply IH.
Qed.

Lemma joinable_polled s : joinable (polled s) = joinable s.
Proof. reflexivity. Qed.

Lemma finished_joinable l :
  forallb joinable (Dict.values l) = true ->
  forallb joinable (finished l) = true.
Proof.
  induction l as [|[sid s] l IH]; simpl; [auto|].
  intros H. apply andb_prop in H as [Hs Hl].
  destruct (is_done (poll_answer s)); simpl; auto.
  rewrite joinable_polled, Hs. auto.
Qed.

Lemma survivors_joinable l :
  forallb joinable (Dict.values l) = true ->
  forallb joinable (Dict.values (survivors l)) = true.
Proof.
  induction l as [|[sid s] l IH]; simpl; [auto|].
  intros H. apply andb_prop in H as [Hs Hl].
  destruct (is_done (poll_answer s)); simpl; auto.
  rewrite joinable_polled, Hs. auto.
Qed.

Lemma drain_joins_joinable fuel : forall l,
  forallb joinable (Dict.values l) = true ->
  forallb joinable (drain_joins fuel l) = true.
Proof.
  induction fuel as [|fuel IH]; intros l H.
  - destruct l; reflexivity.
  - destruct l as [|p l]; [reflexivity|].
    change (forallb joinable
              (finished (p :: l) ++ drain_joins fuel (survivors (p :: l)))
            = true).
    rewrite forallb_app, finished_joinable by exact H.
    rewrite IH by (now apply survivors_joinable). reflexivity.
Qed.

Lemma in_publish_events l code sid s :
  In (sid, s) l -> In (EvPublishExit (_oid s) code) (publish_events l code).
Proof.
  induction l as [|[sid' s'] l IH]; simpl; [tauto|].
  intros [H|H].
  - inversion H; subst. right. now left.
  - right. right. auto.
Qed.

Lemma publish_events_only l code :
  forallb is_publish (publish_events l code) = true.
Proof. induction l as [|[sid s] l IH]; simpl; auto. Qed.

Lemma cycle_events_only l : forallb is_poll_or_sleep (cycle_events l) = true.
Proof. induction l as [|[sid s] l IH]; simpl; auto. Qed.

Lemma drain_events_only fuel : forall l,
  forallb is_poll_or_sleep (drain_events fuel l) = true.
Proof.
  induction fuel as [|fuel IH]; intros l.
  - destruct l; reflexivity.
  - destruct l as [|p l]; [reflexivity|].
    change (forallb is_poll_or_sleep
              (cycle_events (p :: l) ++ drain_events fuel (survivors (p :: l)))
            = true).
    now rewrite forallb_app, cycle_events_only, IH.
Qed.

(** [_finish_all] on a well-formed snapshot, in full. *)
Lemma finish_all_spec fuel l code w :
  Dict.wf l ->
  _finish_all fuel l code w
  = match l with
    | [] => Ok tt w
    | _ :: _ =>
        if drained fuel l
        then (join_all (drain_joins fuel l) ;; emit (EvTermlog "Done!"))
               (log (publish_events l code ++ drain_events fuel l) w)
        else OutOfFuel (log (publish_events l code ++ drain_events fuel l) w)
    end.
Proof.
  intros Hwf. destruct l as [|p l]; [reflexivity|].
  remember (p :: l) as d eqn:Ed.
  assert (Hstep : _finish_all fuel d code w
                  = (publish_all d code ;;
                     streams_to_join <- poll_loop fuel d [] ;;
                     join_all streams_to_join ;;
                     emit (EvTermlog "Done!")) w)
    by (subst d; reflexivity).
  rewrite Hstep. unfold bind at 1. rewrite publish_all_spec.
  unfold bind at 1. rewrite poll_loop_spec by exact Hwf.
  destruct (drained fuel d); rewrite log_log; reflexivity.
Qed.

(** ** Computations that only log *)

Lemma only_logs_ret {A} P (a : A) : only_logs P (ret a).
Proof. intros w. exists []. simpl. now rewrite log_nil. Qed.

Lemma only_logs_raise {A} P e : only_logs P (@raise A e).
Proof. intros w. exists []. simpl. now rewrite log_nil. Qed.

Lemma only_logs_hang {A} P : only_logs P (@hang A).
Proof. intros w. exists []. simpl. now rewrite log_nil. Qed.

Lemma only_logs_out_of_fuel {A} P : only_logs P (@out_of_fuel A).
Proof. intros w. exists []. simpl. now rewrite log_nil. Qed.

Lemma only_logs_emit (P : Event -> bool) e : P e = true -> only_logs P (emit e).
Proof. intros H w. exists [e]. simpl. now rewrite H. Qed.

Lemma only_logs_bind {A B} P (m : M A) (k : A -> M B) :
  only_logs P m -> (forall a, only_logs P (k a)) -> only_logs P (bind m k).
Proof.
  intros Hm Hk w. unfold bind.
  destruct (Hm w) as (e1 & H1 & P1).
  destruct (m w) as [a w1|ex w1|w1|w1]; simpl in H1; subst w1;
    try (exists e1; simpl; now split).
  destruct (Hk a (log e1 w)) as (e2 & H2 & P2).
  exists (e1 ++ e2). rewrite H2, log_log, forallb_app, P1, P2. now split.
Qed.


Lemma poll_cycle_only_logs l : forall d tj,
  only_logs is_drain_event (poll_cycle l d tj).
Proof.
  induction l as [|[sid s] l IH]; intros d tj; simpl.
  - apply only_logs_ret.
  - apply only_logs_bind.
    + unfold communicate_poll_exit. apply only_logs_bind.
      * now apply only_logs_emit.
      * intros _. apply only_logs_ret.
    + intros [r s']. apply only_logs_bind.
      * destruct (is_done r).
        -- destruct (Dict.pop sid d) as [[? ?]|].
           ++ apply only_logs_ret.
           ++ apply only_logs_raise.
        -- apply only_logs_ret.
      * intros q. apply only_logs_bind.
        -- now apply only_logs_emit.
        -- intros _. apply IH.
Qed.

Lemma poll_loop_only_logs fuel : forall d tj,
  only_logs is_drain_event (poll_loop fuel d tj).
Proof.
  induction fuel as [|fuel IH]; intros d tj; destruct d as [|p d].
  - apply only_logs_ret.
  - apply only_logs_out_of_fuel.
  - apply only_logs_ret.
  - change (only_logs is_drain_event
              (q <- poll_cycle (p :: d) (p :: d) tj ;;
               poll_loop fuel (fst q) (snd q))).
    apply only_logs_bind.
    + apply poll_cycle_only_logs.
    + intros q. apply IH.
Qed.

Lemma publish_all_only_logs l code :
  only_logs is_drain_event (publish_all l code).
Proof.
  induction l as [|[sid s] l IH]; simpl.
  - apply only_logs_ret.
  - apply only_logs_bind; [now apply only_logs_emit|intros _].
    apply only_logs_bind; [now apply only_logs_emit|intros _]. exact IH.
Qed.

Lemma join_only_logs s : only_logs is_drain_event (join s).
Proof.
  unfold join. apply only_logs_bind; [now apply only_logs_emit|intros _].
  destruct (_thread s) as [th|].
  - destruct (thread_exits (_target th)).
    + apply only_logs_ret.
    + apply only_logs_hang.
  - apply only_logs_ret.
Qed.

Lemma join_all_only_logs l : only_logs is_drain_event (join_all l).
Proof.
  induction l as [|s l IH]; simpl.
  - apply only_logs_ret.
  - apply only_logs_bind; [apply join_only_logs|intros _; exact IH].
Qed.

Lemma finish_all_only_logs fuel l code :
  only_logs is_drain_event (_finish_all fuel l code).
Proof.
  destruct l as [|p l].
  - apply only_logs_ret.
  - unfold _finish_all.
    apply only_logs_bind; [apply publish_all_only_logs|intros _].
    apply only_logs_bind; [apply poll_loop_only_logs|intros tj].
    apply only_logs_bind; [apply join_all_only_logs|intros _].
    now apply only_logs_emit.
Qed.

Lemma stubborn_never_done oid settings :
  never_done (running_record oid settings stubborn_worker).
Proof.
  intros n. unfold running_record. generalize 0 as k.
  induction n as [|n IH]; intros k; simpl; [reflexivity|].
  apply IH.
Qed.

Lemma two_pending_wf : Dict.wf two_pending.
Proof.
  unfold Dict.wf, two_pending. simpl.
  repeat constructor; simpl; intuition discriminate.
Qed.

Lemma with_stubborn_wf : Dict.wf with_stubborn.
Proof.
  unfold Dict.wf, with_stubborn. simpl.
  repeat constructor; simpl; intuition discriminate.
Qed.

Lemma drained_nil fuel : drained fuel [] = true.
Proof. destruct fuel; reflexivity. Qed.

Lemma drain_events_nil fuel : drain_events fuel [] = [].
Proof. destruct fuel; reflexivity. Qed.

Lemma drain_joins_nil fuel : drain_joins fuel [] = [].
Proof. destruct fuel; reflexivity. Qed.

(** ** Sleeps in a polling pass *)

Lemma count_sleeps_cycle l : count_sleeps (cycle_events l) = List.length l.
Proof.
  unfold count_sleeps. induction l as [|[sid s] l IH]; simpl; auto.
Qed.

Lemma count_polls_cycle l : count_polls (cycle_events l) = List.length l.
Proof.
  unfold count_polls. induction l as [|[sid s] l IH]; simpl; auto.
Qed.

(** C6, as the code has it: a polling pass polls every pending context
    once, in the order of the dict, and sleeps once after each poll, so
    the number of sleeps of a pass is the number of contexts pending at
    its start. *)
Theorem poll_cycle_sleeps_once_per_context :
  forall l tj w,
    Dict.wf l ->
    poll_cycle l l tj w
    = Ok (survivors l, tj ++ finished l) (log (cycle_events l) w)
    /\ count_polls (cycle_events l) = List.length l
    /\ count_sleeps (cycle_events l) = List.length l
    /\ (forall sid s, In (sid, s) l ->
          In (EvPollExit (_oid s) (poll_answer s)) (cycle_events l)).
Proof.
  intros l tj w Hwf. split.
  - pose proof (poll_cycle_spec l [] tj w Hwf) as H.
    now rewrite !app_nil_l in H.
  - split; [apply count_polls_cycle|]. split; [apply count_sleeps_cycle|].
    intros sid s Hin. eapply in_cycle_events; eauto.
Qed.

Lemma poll_cycle_sleeps_once_per_context_witness :
  Dict.wf two_pending
  /\ count_sleeps (cycle_events two_pending) = 2.
Proof.
  split; [exact two_pending_wf|].
  exact (proj1 (proj2 (proj2
           (poll_cycle_sleeps_once_per_context
              two_pending [] (world_with two_pending) two_pending_wf)))).
Defined.

(** C6 fails as stated: a pass over one pending context sleeps once, a
    pass over two pending contexts sleeps twice. *)
Lemma sleeps_per_cycle_grow_with_pending :
  count_sleeps
    (trace (final_world (poll_cycle one_pending one_pending []
                           (world_with one_pending)))) = 1
  /\ count_sleeps
       (trace (final_world (poll_cycle two_pending two_pending []
                              (world_with two_pending)))) = 2.
Proof. split; reflexivity. Qed.

(** ** Processing one action *)

Lemma drain_event_is_effect e :
  is_drain_event e = true -> is_action_effect e = true.
Proof. destruct e; simpl; congruence. Qed.


Ltac config_tac := unfold same_config; simpl; repeat split; reflexivity.

(** The events are read off the trace of the outcome. *)
Ltac effects_tac :=
  eexists; split;
  [|left; split; [rewrite <- ?app_assoc; reflexivity|reflexivity]];
  reflexivity.

Section ActionFacts.
Variable wandb_internal : Data -> option Z -> option Z -> Worker.

Lemma process_add_shape action w :
  action_outcome_shape action w (_process_add wandb_internal action w).
Proof.
  unfold action_outcome_shape, _process_add, bind, StreamRecord_init,
    get_mux, start_thread, bind, emit, _wait_thread_active, bind, emit,
    communicate_status.
  simpl.
  destruct (status_reply
              (wandb_internal (_data action) (_port (mux w)) (_pid (mux w))));
    simpl.
  - split; [config_tac|effects_tac].
  - split; [config_tac|effects_tac].
Qed.

Lemma process_del_shape action w :
  action_outcome_shape action w (_process_del action w).
Proof.
  unfold action_outcome_shape, _process_del, bind, pop_stream, bind,
    get_mux.
  destruct (Dict.pop (_stream_id action) (_streams (mux w)))
    as [[s rest]|]; simpl.
  - unfold join, bind, emit. simpl.
    destruct (_thread s) as [th|]; [destruct (thread_exits (_target th))|];
      simpl; (split; [config_tac|effects_tac]).
  - split; [config_tac|].
    exists []. split; [reflexivity|]. left. now rewrite app_nil_r.
Qed.

Lemma process_drop_shape action w :
  action_outcome_shape action w (_process_drop action w).
Proof.
  unfold action_outcome_shape, _process_drop, bind, pop_stream, bind,
    get_mux.
  destruct (Dict.pop (_stream_id action) (_streams (mux w)))
    as [[s rest]|]; simpl.
  - unfold join, bind, emit. simpl.
    destruct (_thread s) as [th|]; [destruct (thread_exits (_target th))|];
      simpl; (split; [config_tac|effects_tac]).
  - split; [config_tac|].
    exists []. split; [reflexivity|]. left. now rewrite app_nil_r.
Qed.

(** A teardown runs the drain protocol on the map as it is, then clears
    the map and raises the stop flag. *)
Lemma process_teardown_unfold fuel action w :
  _process_teardown fuel action w
  = match _finish_all fuel (_streams (mux w)) (_data action) w with
    | Ok _ w1 =>
        Ok tt (log [EvClear; EvStop]
                 (mkWorld (set_stopped true (set_streams Dict.empty (mux w1)))
                    (trace w1) (next_oid w1)))
    | Raise e w1 => Raise e w1
    | Hang w1 => Hang w1
    | OutOfFuel w1 => OutOfFuel w1
    end.
Proof.
  unfold _process_teardown, bind at 1, get_mux. unfold bind at 1.
  destruct (_finish_all fuel (_streams (mux w)) (_data action) w);
    try reflexivity.
  unfold bind, get_mux, put_mux, emit, log. simpl.
  now rewrite <- app_assoc.
Qed.

Lemma process_teardown_shape fuel action w :
  _action action = "teardown" ->
  action_outcome_shape action w (_process_teardown fuel action w).
Proof.
  intros Hk. rewrite process_teardown_unfold.
  destruct (finish_all_only_logs fuel (_streams (mux w)) (_data action) w)
    as (evs & Hw & Hev).
  assert (Heff : forallb is_action_effect evs = true).
  { rewrite forallb_forall in *. intros e He.
    apply drain_event_is_effect. auto. }
  unfold action_outcome_shape.
  destruct (_finish_all fuel (_streams (mux w)) (_data action) w)
    as [[] w1|e w1|w1|w1]; simpl in Hw; subst w1; simpl;
    (split; [config_tac|]); exists evs;
    (split; [exact Heff|]).
  - right. repeat split; auto. now rewrite <- app_assoc.
  - left. now split.
  - left. now split.
  - left. now split.
Qed.

Lemma process_action_shape fuel action w :
  action_outcome_shape action w
    (_process_action wandb_internal fuel action w).
Proof.
  unfold _process_action.
  destruct (String.eqb (_action action) "add"); [apply process_add_shape|].
  destruct (String.eqb (_action action) "del"); [apply process_del_shape|].
  destruct (String.eqb (_action action) "drop"); [apply process_drop_shape|].
  destruct (String.eqb_spec (_action action) "teardown") as [Hk|Hk].
  - now apply process_teardown_shape.
  - unfold action_outcome_shape, raise. simpl.
    split; [config_tac|].
    exists []. split; [reflexivity|]. left. now rewrite app_nil_r.
Qed.

End ActionFacts.

Section Dispatch.
Variable wandb_internal : Data -> option Z -> option Z -> Worker.

Lemma dispatch_add fuel action :
  _action action = "add" ->
  _process_action wandb_internal fuel action
  = _process_add wandb_internal action.
Proof. intros H. unfold _process_action. now rewrite H. Qed.

Lemma dispatch_del fuel action :
  _action action = "del" ->
  _process_action wandb_internal fuel action = _process_del action.
Proof. intros H. unfold _process_action. now rewrite H. Qed.


Lemma dispatch_teardown fuel action :
  _action action = "teardown" ->
  _process_action wandb_internal fuel action
  = _process_teardown fuel action.
Proof. intros H. unfold _process_action. now rewrite H. Qed.
End Dispatch.

(** The drain protocol returns when every context answers done within the
    fuel and every worker thread exits. *)
Lemma finish_all_returns fuel l code w :
  Dict.wf l ->
  forallb (fun p => done_within fuel (snd p)) l = true ->
  forallb joinable (Dict.values l) = true ->
  exists evs, _finish_all fuel l code w = Ok tt (log evs w).
Proof.
  intros Hwf Hd Hj. rewrite finish_all_spec by exact Hwf.
  destruct l as [|p l].
  - exists []. now rewrite log_nil.
  - rewrite done_within_drained by exact Hd.
    unfold bind. rewrite join_all_ok by (now apply drain_joins_joinable).
    unfold emit. rewrite !log_log. eauto.
Qed.

(** ** Teardown *)

(** When the loop ends, every context of its input is on the list to
    join. *)
Lemma drained_all_joined fuel : forall l sid s,
  drained fuel l = true -> In (sid, s) l ->
  In (EvJoin (_oid s)) (join_events (drain_joins fuel l)).
Proof.
  induction fuel as [|fuel IH]; intros l sid s Hd Hin.
  - destruct l; [contradiction|discriminate].
  - destruct l as [|p l]; [contradiction|].
    change (In (EvJoin (_oid s))
              (join_events
                 (finished (p :: l) ++ drain_joins fuel (survivors (p :: l))))).
    change (drained fuel (survivors (p :: l)) = true) in Hd.
    unfold join_events. rewrite map_app. apply in_or_app.
    destruct (in_pending_split _ _ _ Hin) as [[_ Hf]|[_ Hs]].
    + left. change (EvJoin (_oid s)) with (EvJoin (_oid (polled s))).
      now apply (in_map (fun j => EvJoin (_oid j))).
    + right. exact (IH _ _ _ Hd Hs).
Qed.

(** What a returning [_finish_all] has done. *)
Lemma finish_all_returned fuel l code w w1 :
  Dict.wf l ->
  _finish_all fuel l code w = Ok tt w1 ->
  drained fuel l = true /\ w1 = log (finish_events fuel l code) w.
Proof.
  intros Hwf Hrun. rewrite finish_all_spec in Hrun by exact Hwf.
  unfold finish_events, done_events. destruct l as [|p l].
  - inversion Hrun; subst.
    rewrite drained_nil, drain_events_nil, drain_joins_nil. simpl.
    now rewrite log_nil.
  - remember (p :: l) as d eqn:Ed.
    destruct (drained fuel d) eqn:Hd; [|discriminate].
    unfold bind in Hrun.
    destruct (join_all (drain_joins fuel d)
                (log (publish_events d code ++ drain_events fuel d) w))
      as [[] w2|e w2|w2|w2] eqn:Hj; try discriminate.
    apply join_all_inv in Hj as [-> _].
    unfold emit in Hrun. inversion Hrun; subst w1.
    rewrite !log_log, <- !app_assoc. subst d. now split.
Qed.

(** C3: a teardown action runs the drain protocol against the map as it is
    when the action is processed, then clears the map and sets the stop
    flag.  When it has returned, every context of that map has been sent
    the exit code, has answered done to a poll and has been joined, in the
    order fan-out, polling passes, joins; after that the map was cleared
    and the stop flag set: no id is registered and the supervisor is
    stopped.  It does return, for any number of registered streams, when
    every registered context answers done within the fuel and every worker
    thread exits. *)
Theorem teardown_drains_clears_and_stops :
  forall wandb_internal fuel action w,
    _action action = "teardown" ->
    Dict.wf (_streams (mux w)) ->
    (forall w',
       _process_action wandb_internal fuel action w = Ok tt w' ->
       (exists w1,
          _finish_all fuel (_streams (mux w)) (_data action) w = Ok tt w1
          /\ trace w' = trace w1 ++ [EvClear; EvStop]
          /\ stream_names (mux w') = []
          /\ _stopped (mux w') = true)
       /\ trace w'
          = trace w ++ finish_events fuel (_streams (mux w)) (_data action)
              ++ [EvClear; EvStop]
       /\ (forall sid s,
             In (sid, s) (_streams (mux w)) ->
             In (EvPublishExit (_oid s) (_data action))
               (publish_events (_streams (mux w)) (_data action))
             /\ In (EvPollExit (_oid s) (Resp true))
                  (drain_events fuel (_streams (mux w)))
             /\ In (EvJoin (_oid s))
                  (join_events (drain_joins fuel (_streams (mux w)))))
       /\ mux w' = set_stopped true (set_streams Dict.empty (mux w)))
    /\ (forallb (fun p => done_within fuel (snd p)) (_streams (mux w)) = true ->
        forallb joinable (Dict.values (_streams (mux w))) = true ->
        exists w',
          _process_action wandb_internal fuel action w = Ok tt w'
          /\ stream_names (mux w') = []
          /\ _stopped (mux w') = true).
Proof.
  intros wi fuel action w Hk Hwf.
  rewrite dispatch_teardown by exact Hk.
  rewrite process_teardown_unfold. split.
  - intros w' Hrun.
    destruct (_finish_all fuel (_streams (mux w)) (_data action) w)
      as [[] w1|e w1|w1|w1] eqn:Hfin; try discriminate.
    destruct (finish_all_returned _ _ _ _ _ Hwf Hfin) as [Hd Hw1].
    inversion Hrun; subst w'. split; [exists w1; now repeat split|].
    subst w1. simpl. split; [now rewrite <- app_assoc|]. split.
    + intros sid s Hin. split; [|split].
      * now apply in_publish_events with (sid := sid).
      * now apply drained_all_reported with (sid := sid).
      * now apply drained_all_joined with (sid := sid).
    + reflexivity.
  - intros Hd Hj.
    destruct (finish_all_returns fuel _ (_data action) w Hwf Hd Hj)
      as (evs & ->).
    eexists. repeat split.
Qed.

Lemma teardown_drains_clears_and_stops_witness :
  _action (teardown 0) = "teardown"
  /\ Dict.wf (_streams (mux (world_with two_pending)))
  /\ exists w',
       _process_action sample_internal 3 (teardown 0) (world_with two_pending)
       = Ok tt w'
       /\ stream_names (mux w') = []
       /\ _stopped (mux w') = true
       /\ trace w'
          = [EvTermlog "Finishing run: a..."; EvPublishExit 0 (ExitCode 0);
             EvTermlog "Finishing run: b..."; EvPublishExit 1 (ExitCode 0);
             EvPollExit 0 (Resp false); EvSleep;
             EvPollExit 1 (Resp false); EvSleep;
             EvPollExit 0 (Resp true); EvSleep;
             EvPollExit 1 (Resp false); EvSleep;
             EvPollExit 1 (Resp true); EvSleep;
             EvJoin 0; EvJoin 1; EvTermlog "Done!"; EvClear; EvStop].
Proof.
  split; [reflexivity|]. split; [exact two_pending_wf|].
  destruct (teardown_drains_clears_and_stops sample_internal 3 (teardown 0)
              (world_with two_pending) eq_refl two_pending_wf) as [H1 H2].
  destruct (H2 eq_refl eq_refl) as (w' & Hrun & Hn & Hs).
  exists w'. split; [exact Hrun|]. split; [exact Hn|]. split; [exact Hs|].
  destruct (H1 w' Hrun) as (_ & Htr & _). rewrite Htr. reflexivity.
Defined.

(** ** The drain protocol waits for every context *)

(** C4: [_finish_all] returns only when every context of its input has
    answered done.  When it returns, the trace is: a finish message to
    every context, then the polling passes (polls and sleeps only) until
    no context is pending, then the joins, and every joined context has
    answered done before.  A context that never answers done keeps the
    protocol in its polling loop for any amount of fuel: it never returns,
    nothing is joined, and a teardown over such a map never returns
    either. *)
Theorem finish_all_returns_only_when_all_done :
  forall wandb_internal fuel l code w,
    Dict.wf l ->
    (forall w', _finish_all fuel l code w = Ok tt w' ->
       drained fuel l = true
       /\ trace w' = trace w ++ publish_events l code ++ drain_events fuel l
                       ++ join_events (drain_joins fuel l)
                       ++ match l with [] => [] | _ => [EvTermlog "Done!"] end
       /\ forallb is_publish (publish_events l code) = true
       /\ forallb is_poll_or_sleep (drain_events fuel l) = true
       /\ (forall sid s, In (sid, s) l ->
             In (EvPublishExit (_oid s) code) (publish_events l code)
             /\ In (EvPollExit (_oid s) (Resp true)) (drain_events fuel l))
       /\ (forall j, In j (drain_joins fuel l) ->
             In (EvPollExit (_oid j) (Resp true)) (drain_events fuel l)))
    /\ (forall sid s, In (sid, s) l -> never_done s ->
          _finish_all fuel l code w
          = OutOfFuel (log (publish_events l code ++ drain_events fuel l) w)
          /\ (_streams (mux w) = l ->
              _process_action wandb_internal fuel
                (mkStreamAction "teardown" "na" code) w
              = OutOfFuel
                  (log (publish_events l code ++ drain_events fuel l) w))).
Proof.
  intros wi fuel l code w Hwf. split.
  - intros w' Hrun. rewrite finish_all_spec in Hrun by exact Hwf.
    destruct l as [|p l].
    + inversion Hrun; subst.
      rewrite drained_nil, drain_events_nil, drain_joins_nil. simpl.
      rewrite app_nil_r.
      split; [reflexivity|]. split; [reflexivity|].
      split; [reflexivity|]. split; [reflexivity|].
      split; intros; contradiction.
    + remember (p :: l) as d eqn:Ed.
      destruct (drained fuel d) eqn:Hd; [|discriminate].
      unfold bind in Hrun.
      destruct (join_all (drain_joins fuel d)
                  (log (publish_events d code ++ drain_events fuel d) w))
        as [[] w1|e w1|w1|w1] eqn:Hj; try discriminate.
      apply join_all_inv in Hj as [-> _].
      unfold emit in Hrun. inversion Hrun; subst w'.
      rewrite !log_log, trace_log, <- !app_assoc.
      split; [reflexivity|]. split; [reflexivity|].
      split; [apply publish_events_only|].
      split; [apply drain_events_only|]. split.
      * intros sid s Hin. split.
        -- now apply in_publish_events with (sid := sid).
        -- now apply drained_all_reported with (sid := sid).
      * intros j Hin. now apply drain_joins_reported.
  - intros sid s Hin Hn.
    assert (Hrun : _finish_all fuel l code w
                   = OutOfFuel
                       (log (publish_events l code ++ drain_events fuel l) w)).
    { rewrite finish_all_spec by exact Hwf.
      destruct l as [|p l]; [contradiction|].
      now rewrite (never_done_not_drained fuel _ _ _ Hin Hn). }
    split; [exact Hrun|].
    intros Hl. rewrite dispatch_teardown by reflexivity.
    rewrite process_teardown_unfold. simpl. now rewrite Hl, Hrun.
Qed.

Lemma finish_all_returns_only_when_all_done_witness :
  Dict.wf with_stubborn
  /\ _finish_all 5 with_stubborn (ExitCode 0) (world_with with_stubborn)
     = OutOfFuel
         (log (publish_events with_stubborn (ExitCode 0)
                 ++ drain_events 5 with_stubborn)
            (world_with with_stubborn))
  /\ (forall w',
        _finish_all 5 two_pending (ExitCode 0) (world_with two_pending)
        = Ok tt w' ->
        drained 5 two_pending = true).
Proof.
  split; [exact with_stubborn_wf|]. split.
  - destruct (finish_all_returns_only_when_all_done sample_internal
                5 with_stubborn (ExitCode 0) (world_with with_stubborn)
                with_stubborn_wf) as [_ H].
    exact (proj1 (H "b" (running_record 1 cfg2 stubborn_worker)
                    (or_intror (or_introl eq_refl))
                    (stubborn_never_done 1 cfg2))).
  - intros w' Hrun.
    destruct (finish_all_returns_only_when_all_done sample_internal
                5 two_pending (ExitCode 0) (world_with two_pending)
                two_pending_wf) as [H _].
    exact (proj1 (H w' Hrun)).
Defined.

(** ** Adding a stream *)

(** C1, as the code has it: an add action makes no duplicate check.
    Whether or not the id is registered, a new context is created and
    started and, once its worker has acknowledged the status probe, it is
    registered under the id: appended to the map when the id is absent,
    put in the place of the existing context, which is lost, when the id
    is present.  The other ids keep their contexts. *)
Theorem add_registers_or_replaces :
  forall wandb_internal fuel action w,
    _action action = "add" ->
    status_reply
      (wandb_internal (_data action) (_port (mux w)) (_pid (mux w))) = true ->
    let stream :=
      mkStreamRecord (next_oid w)
        (Some (mkStreamThread (_data action) (_port (mux w)) (_pid (mux w))
                 (wandb_internal (_data action) (_port (mux w)) (_pid (mux w)))
                 true))
        false 0 in
    exists w',
      _process_action wandb_internal fuel action w = Ok tt w'
      /\ get_stream (_stream_id action) (mux w') = Some stream
      /\ trace w' = trace w ++ [EvThreadStart (next_oid w);
                                EvStatus (next_oid w) true;
                                EvRegister (_stream_id action) (next_oid w)]
      /\ (forall k, k <> _stream_id action ->
            get_stream k (mux w') = get_stream k (mux w))
      /\ (has_stream (_stream_id action) (mux w) = false ->
          stream_names (mux w') = stream_names (mux w) ++ [_stream_id action])
      /\ (has_stream (_stream_id action) (mux w) = true ->
          stream_names (mux w') = stream_names (mux w)).
Proof.
  intros wi fuel action w Hk Hs stream.
  rewrite dispatch_add by exact Hk.
  unfold _process_add, bind, StreamRecord_init, get_mux, start_thread, bind,
    emit, _wait_thread_active, bind, emit, communicate_status.
  simpl. rewrite Hs. simpl.
  eexists. split; [reflexivity|]. simpl.
  unfold get_stream, stream_names, has_stream. simpl.
  split; [apply DictFacts.get_set_same|].
  split; [now rewrite <- !app_assoc|].
  split; [intros k Hne; now apply DictFacts.get_set_other|].
  split; intros H.
  - apply DictFacts.keys_set_notin. now apply DictFacts.contains_false_notin.
  - apply DictFacts.keys_set_in. now apply DictFacts.contains_true_in.
Qed.

Lemma add_registers_or_replaces_witness :
  _action (add_stream "run-1" cfg2) = "add"
  /\ status_reply (sample_internal cfg2 None None) = true
  /\ exists w',
       _process_action sample_internal 0 (add_stream "run-1" cfg2)
         (world_with one_pending) = Ok tt w'.
Proof.
  split; [reflexivity|]. split; [reflexivity|].
  destruct (add_registers_or_replaces sample_internal 0
              (add_stream "run-1" cfg2) (world_with one_pending)
              eq_refl eq_refl) as (w' & H & _).
  exists w'. exact H.
Defined.

(** C1 fails as stated: adding "run-1" a second time succeeds, and the
    context registered under "run-1" then carries the second config. *)
Lemma second_add_replaces_context :
  let w1 :=
    final_world (_process_action sample_internal 0 (add_stream "run-1" cfg1)
                   world_init) in
  let w2 :=
    final_world (_process_action sample_internal 0 (add_stream "run-1" cfg2)
                   w1) in
  _process_action sample_internal 0 (add_stream "run-1" cfg1) world_init
  = Ok tt w1
  /\ has_stream "run-1" (mux w1) = true
  /\ _process_action sample_internal 0 (add_stream "run-1" cfg2) w1 = Ok tt w2
  /\ stream_names (mux w2) = ["run-1"]
  /\ get_stream "run-1" (mux w2)
     = Some (mkStreamRecord 1
               (Some (mkStreamThread cfg2 None None (prompt_worker 1) true))
               false 0).
Proof.
  cbv zeta. repeat split; reflexivity.
Qed.

(** ** Removing an unknown stream *)

Lemma pop_absent {V} k (d : Dict.t V) :
  Dict.contains k d = false -> Dict.pop k d = None.
Proof.
  unfold Dict.contains, Dict.pop. now destruct (Dict.get k d).
Qed.

(** C2, as the code has it: a del action for an id that is not registered
    raises [KeyError] for that id and leaves the supervisor as it was.
    Nothing delivers the error to the caller: the exception leaves the
    body of the loop before [set_handled], so the completion signal is
    never set, and it leaves [_loop] too, which ends with the error
    whatever actions are still queued or still to come. *)
Theorem del_unknown_raises_and_aborts_loop :
  forall wandb_internal fuel action w,
    _action action = "del" ->
    has_stream (_stream_id action) (mux w) = false ->
    _process_action wandb_internal fuel action w
    = Raise (KeyError (_stream_id action)) w
    /\ (forall e rest w0,
          _stopped (mux w0) = false ->
          loop_head e w0 = Ok (Some action) w ->
          loop_body wandb_internal fuel e w0
          = Raise (KeyError (_stream_id action)) w
          /\ _loop wandb_internal fuel (e :: rest) w0
             = Raise (KeyError (_stream_id action)) w).
Proof.
  intros wi fuel action w Hk Habs.
  assert (Hp : _process_action wi fuel action w
               = Raise (KeyError (_stream_id action)) w).
  { rewrite dispatch_del by exact Hk.
    unfold _process_del, bind, pop_stream, bind, get_mux.
    unfold has_stream in Habs. now rewrite (pop_absent _ _ Habs). }
  split; [exact Hp|].
  intros e rest w0 Hns Hhead.
  assert (Hb : loop_body wi fuel e w0
               = Raise (KeyError (_stream_id action)) w).
  { unfold loop_body, bind at 1. rewrite Hhead.
    unfold bind at 1. now rewrite Hp. }
  split; [exact Hb|].
  simpl. rewrite Hns. unfold bind. now rewrite Hb.
Qed.

Lemma del_unknown_raises_and_aborts_loop_witness :
  _action (del_stream "x") = "del"
  /\ has_stream "x" (mux (final_world (loop_head (calm [del_stream "x"])
                                         world_init))) = false
  /\ _stopped (mux world_init) = false
  /\ loop_head (calm [del_stream "x"]) world_init
     = Ok (Some (del_stream "x"))
         (final_world (loop_head (calm [del_stream "x"]) world_init))
  /\ _loop sample_internal 0 [calm [del_stream "x"]; calm []] world_init
     = Raise (KeyError "x")
         (final_world (loop_head (calm [del_stream "x"]) world_init)).
Proof.
  split; [reflexivity|]. split; [reflexivity|].
  split; [reflexivity|]. split; [reflexivity|].
  destruct (del_unknown_raises_and_aborts_loop sample_internal 0
              (del_stream "x")
              (final_world (loop_head (calm [del_stream "x"]) world_init))
              eq_refl eq_refl) as [_ H].
  exact (proj2 (H (calm [del_stream "x"]) [calm []] world_init
                  eq_refl eq_refl)).
Defined.

(** C2 fails as stated: after a del of the unknown id "x" the loop has
    ended with the [KeyError], no completion signal was set, and the add
    that was queued behind it is still on the queue, unprocessed. *)
Lemma del_unknown_stops_the_loop :
  let o :=
    _loop sample_internal 0
      [calm [del_stream "x"; add_stream "y" cfg1]; calm []; calm []]
      world_init in
  o = Raise (KeyError "x") (final_world o)
  /\ count_set_handled (trace (final_world o)) = 0
  /\ items (_action_q (mux (final_world o))) = [add_stream "y" cfg1]
  /\ has_stream "y" (mux (final_world o)) = false.
Proof.
  cbv zeta. repeat split; reflexivity.
Qed.

(** ** The orphan check *)

Lemma throttled_true ts now :
  float_truthy ts = true ->
  PrimFloat.ltb now (PrimFloat.add ts 2%float) = true ->
  throttled (Some ts) now = true.
Proof. intros Hnz Hlt. simpl. now rewrite Hnz, Hlt. Qed.


Lemma check_orphaned_disabled now table w :
  pid_truthy (_pid (mux w)) = false ->
  _check_orphaned now table w = Ok false w.
Proof.
  intros H. unfold _check_orphaned, bind, get_mux.
  destruct (_pid (mux w)) as [pid|]; [|reflexivity].
  now rewrite H.
Qed.

Lemma check_orphaned_throttled now table w pid :
  _pid (mux w) = Some pid ->
  throttled (_pid_checked_ts (mux w)) now = true ->
  _check_orphaned now table w = Ok false w.
Proof.
  intros Hp Ht. unfold _check_orphaned, bind, get_mux. rewrite Hp, Ht.
  now destruct (negb (pid_truthy (Some pid))).
Qed.

Lemma check_orphaned_probes now table w pid :
  _pid (mux w) = Some pid -> pid <> 0%Z ->
  throttled (_pid_checked_ts (mux w)) now = false ->
  _check_orphaned now table w
  = Ok (negb (table pid))
      (log [EvPidProbe pid (table pid)]
         (mkWorld (set_pid_checked_ts (Some now) (mux w)) (trace w)
            (next_oid w))).
Proof.
  intros Hp Hnz Ht. unfold _check_orphaned, bind, get_mux. rewrite Hp, Ht.
  simpl. destruct (Z.eqb_spec pid 0); [contradiction|reflexivity].
Qed.

(** A timestamp of exactly 0.0 is falsy: a check recorded at that instant
    does not throttle the next one. *)
Lemma check_orphaned_zero_timestamp_probes :
  final_world
    (_check_orphaned 1%float (fun _ => true)
       (mkWorld (set_pid_checked_ts (Some 0%float) (set_pid 7 StreamMux_init))
          [] 0))
  = mkWorld (set_pid_checked_ts (Some 1%float) (set_pid 7 StreamMux_init))
      [EvPidProbe 7 true] 0.
Proof. reflexivity. Qed.

(** ** One turn of the control loop *)

Lemma fold_put l : forall q,
  fold_left (fun q a => put a q) l q
  = mkActionQueue (items q ++ l) (unfinished_tasks q + List.length l).
Proof.
  induction l as [|a l IH]; intros q; simpl.
  - destruct q. simpl. now rewrite app_nil_r, Nat.add_0_r.
  - rewrite IH. unfold put. simpl. rewrite <- app_assoc. simpl.
    f_equal. lia.
Qed.

Lemma enqueue_spec l w :
  enqueue l w
  = Ok tt (mkWorld
             (set_action_q
                (mkActionQueue (items (_action_q (mux w)) ++ l)
                   (unfinished_tasks (_action_q (mux w)) + List.length l))
                (mux w))
             (trace w) (next_oid w)).
Proof.
  unfold enqueue, bind, get_mux, put_mux. now rewrite fold_put.
Qed.

Lemma enqueue_get l w :
  exists got w1,
    (enqueue l ;; queue_get) w = Ok got w1
    /\ trace w1 = trace w ++ got_events got
    /\ _pid (mux w1) = _pid (mux w)
    /\ _streams (mux w1) = _streams (mux w)
    /\ _stopped (mux w1) = _stopped (mux w)
    /\ (queue_ok (_action_q (mux w)) ->
        queue_ok (_action_q (mux w1))
        /\ (got <> None ->
            List.length (items (_action_q (mux w1)))
            < unfinished_tasks (_action_q (mux w1)))).
Proof.
  unfold bind at 1. rewrite enqueue_spec.
  unfold queue_get, bind, get_mux, put_mux, emit, queue_ok. simpl.
  destruct (items (_action_q (mux w)) ++ l) as [|a r] eqn:E; simpl.
  - exists None. eexists. split; [reflexivity|]. simpl.
    rewrite app_nil_r. repeat split; [lia|congruence].
  - exists (Some a). eexists. split; [reflexivity|]. simpl.
    assert (Hlen : List.length (items (_action_q (mux w))) + List.length l
                   = S (List.length r))
      by (rewrite <- length_app, E; reflexivity).
    repeat split; lia.
Qed.

Lemma loop_head_shape e w :
  exists got w1 orph,
    loop_head e w = Ok got w1
    /\ trace w1 = trace w ++ orph ++ got_events got
    /\ _pid (mux w1) = _pid (mux w)
    /\ _streams (mux w1) = _streams (mux w)
    /\ orphan_events orph
    /\ _stopped (mux w1) = _stopped (mux w) || has_stop orph
    /\ (pid_truthy (_pid (mux w)) = false -> orph = [])
    /\ (queue_ok (_action_q (mux w)) ->
        queue_ok (_action_q (mux w1))
        /\ (got <> None ->
            List.length (items (_action_q (mux w1)))
            < unfinished_tasks (_action_q (mux w1)))).
Proof.
  unfold loop_head.
  destruct (pid_truthy (_pid (mux w))) eqn:Hp.
  - destruct (_pid (mux w)) as [pid|] eqn:Hpid; [|discriminate].
    assert (Hnz : pid <> 0%Z).
    { simpl in Hp. intros ->. discriminate. }
    destruct (throttled (_pid_checked_ts (mux w)) (time_now e)) eqn:Ht.
    + unfold bind at 1. rewrite (check_orphaned_throttled _ _ _ _ Hpid Ht).
      unfold bind at 1. unfold ret.
      destruct (enqueue_get (arrivals e) w)
        as (got & w1 & H & Ht1 & Hp1 & Hs1 & Hst1 & Hq).
      exists got, w1, []. rewrite H, Ht1, Hp1, Hs1, Hst1, Hpid. simpl.
      rewrite orb_false_r.
      repeat (split; [first [reflexivity|constructor|congruence]|]).
      exact Hq.
    + unfold bind at 1.
      rewrite (check_orphaned_probes _ _ _ _ Hpid Hnz Ht).
      destruct (pid_exists e pid) eqn:Halive; simpl.
      * unfold bind at 1. unfold ret.
        match goal with
        | |- context [(enqueue _ ;; queue_get) ?w0] =>
            destruct (enqueue_get (arrivals e) w0)
              as (got & w1 & H & Ht1 & Hp1 & Hs1 & Hst1 & Hq)
        end.
        exists got, w1, [EvPidProbe pid true].
        rewrite H, Ht1, Hp1, Hs1, Hst1. simpl.
        rewrite orb_false_r, <- app_assoc. simpl.
        repeat (split; [first [reflexivity|constructor|congruence]|]).
        exact Hq.
      * unfold bind at 1. unfold bind at 1. unfold get_mux, put_mux, emit.
        simpl.
        match goal with
        | |- context [(enqueue _ ;; queue_get) ?w0] =>
            destruct (enqueue_get (arrivals e) w0)
              as (got & w1 & H & Ht1 & Hp1 & Hs1 & Hst1 & Hq)
        end.
        exists got, w1, [EvPidProbe pid false; EvStop].
        rewrite H, Ht1, Hp1, Hs1, Hst1. simpl.
        rewrite orb_true_r, <- !app_assoc. simpl.
        repeat (split; [first [reflexivity|constructor|congruence]|]).
        exact Hq.
  - unfold bind at 1. rewrite (check_orphaned_disabled _ _ _ Hp).
    unfold bind at 1. unfold ret.
    destruct (enqueue_get (arrivals e) w)
      as (got & w1 & H & Ht1 & Hp1 & Hs1 & Hst1 & Hq).
    exists got, w1, []. rewrite H, Ht1, Hp1, Hs1, Hst1. simpl.
    rewrite orb_false_r.
    repeat (split; [first [reflexivity|constructor|congruence]|]).
    exact Hq.
Qed.

Lemma handled_spec action w :
  (set_handled action ;; task_done) w
  = match unfinished_tasks (_action_q (mux w)) with
    | O => Raise (ValueError "task_done() called too many times")
             (log [EvSetHandled action] w)
    | S n =>
        Ok tt (log [EvSetHandled action; EvTaskDone]
                 (mkWorld
                    (set_action_q (mkActionQueue (items (_action_q (mux w))) n)
                       (mux w))
                    (trace w) (next_oid w)))
    end.
Proof.
  unfold set_handled, task_done, bind, emit, get_mux, put_mux, log, raise.
  simpl. destruct (unfinished_tasks (_action_q (mux w))); [reflexivity|].
  simpl. now rewrite <- app_assoc.
Qed.

Section TurnFacts.
Variable wandb_internal : Data -> option Z -> option Z -> Worker.

Lemma loop_body_unfold fuel e w got w1 :
  loop_head e w = Ok got w1 ->
  loop_body wandb_internal fuel e w
  = match got with
    | None => Ok tt w1
    | Some action =>
        match _process_action wandb_internal fuel action w1 with
        | Ok _ w2 => (set_handled action ;; task_done) w2
        | Raise ex w2 => Raise ex w2
        | Hang w2 => Hang w2
        | OutOfFuel w2 => OutOfFuel w2
        end
    end.
Proof.
  intros H. unfold loop_body, bind at 1. rewrite H.
  destruct got as [action|]; [|reflexivity].
  unfold bind at 1.
  destruct (_process_action wandb_internal fuel action w1); reflexivity.
Qed.

Lemma loop_body_shape fuel e w :
  exists orph rest raised,
    trace (final_world (loop_body wandb_internal fuel e w))
    = trace w ++ orph ++ rest
    /\ _pid (mux (final_world (loop_body wandb_internal fuel e w)))
       = _pid (mux w)
    /\ orphan_events orph
    /\ (pid_truthy (_pid (mux w)) = false -> orph = [])
    /\ action_events rest raised
    /\ _stopped (mux (final_world (loop_body wandb_internal fuel e w)))
       = _stopped (mux w) || has_stop orph || raised.
Proof.
  destruct (loop_head_shape e w)
    as (got & w1 & orph & Hh & Ht1 & Hp1 & _ & Ho & Hs1 & Hnp & _).
  rewrite (loop_body_unfold fuel e w got w1 Hh).
  destruct got as [action|].
  - destruct (process_action_shape wandb_internal fuel action w1)
      as ((_ & Hpid & _ & _) & evs & Heff & Hcase).
    destruct Hcase as [[Htr Hst]|(Hk & Hok & Htr & Hst & _)].
    + destruct (_process_action wandb_internal fuel action w1)
        as [[] w2|ex w2|w2|w2]; simpl in Hpid, Htr, Hst.
      * rewrite handled_spec.
        destruct (unfinished_tasks (_action_q (mux w2))); simpl.
        -- exists orph, (EvGet action :: evs ++ [EvSetHandled action]), false.
           rewrite Htr, Ht1, Hst, Hs1, Hpid, Hp1, orb_false_r. simpl.
           rewrite <- !app_assoc. simpl.
           repeat split; auto. now constructor.
        -- exists orph,
             (EvGet action :: evs ++ [EvSetHandled action; EvTaskDone]), false.
           rewrite Htr, Ht1, Hst, Hs1, Hpid, Hp1, orb_false_r. simpl.
           rewrite <- !app_assoc. simpl.
           repeat split; auto. now constructor.
      * simpl. exists orph, (EvGet action :: evs), false.
        rewrite Htr, Ht1, Hst, Hs1, Hpid, Hp1, orb_false_r. simpl.
        rewrite <- !app_assoc. simpl.
        repeat split; auto. now constructor.
      * simpl. exists orph, (EvGet action :: evs), false.
        rewrite Htr, Ht1, Hst, Hs1, Hpid, Hp1, orb_false_r. simpl.
        rewrite <- !app_assoc. simpl.
        repeat split; auto. now constructor.
      * simpl. exists orph, (EvGet action :: evs), false.
        rewrite Htr, Ht1, Hst, Hs1, Hpid, Hp1, orb_false_r. simpl.
        rewrite <- !app_assoc. simpl.
        repeat split; auto. now constructor.
    + rewrite Hok in *. simpl in Hpid, Htr, Hst.
      rewrite handled_spec.
      destruct (unfinished_tasks
                  (_action_q
                     (mux (final_world
                             (_process_action wandb_internal fuel action w1)))));
        simpl.
      * exists orph,
          (EvGet action :: evs ++ [EvClear; EvStop; EvSetHandled action]),
          true.
        rewrite Htr, Ht1, Hst, Hpid, Hp1, orb_true_r. simpl.
        rewrite <- !app_assoc. simpl.
        repeat split; auto. now constructor.
      * exists orph,
          (EvGet action
             :: evs ++ [EvClear; EvStop; EvSetHandled action; EvTaskDone]),
          true.
        rewrite Htr, Ht1, Hst, Hpid, Hp1, orb_true_r. simpl.
        rewrite <- !app_assoc. simpl.
        repeat split; auto. now constructor.
  - simpl. exists orph, [], false.
    rewrite Ht1, Hs1, Hp1, orb_false_r. simpl.
    repeat split; auto. constructor.
Qed.

End TurnFacts.

(** ** Events before and after the stop flag *)

Lemma after_first_skip P l l' :
  none P l = true -> after_first P (l ++ l') = after_first P l'.
Proof.
  unfold none. induction l as [|e l IH]; simpl; [reflexivity|].
  intros H. apply andb_prop in H as [He Hl].
  apply negb_true_iff in He. rewrite He. auto.
Qed.

Lemma after_first_none P l : none P l = true -> after_first P l = [].
Proof.
  intros H. rewrite <- (app_nil_r l). now rewrite after_first_skip.
Qed.

Lemma count_gets_app l l' : count_gets (l ++ l') = count_gets l + count_gets l'.
Proof. unfold count_gets. now rewrite filter_app, length_app. Qed.

Lemma count_gets_none l : none is_get l = true -> count_gets l = 0.
Proof.
  unfold none, count_gets. induction l as [|e l IH]; simpl; [reflexivity|].
  intros H. apply andb_prop in H as [He Hl].
  apply negb_true_iff in He. rewrite He. auto.
Qed.

Lemma effects_none (P : Event -> bool) effs :
  (forall e, is_action_effect e = true -> P e = false) ->
  forallb is_action_effect effs = true -> none P effs = true.
Proof.
  intros HP H. unfold none. rewrite forallb_forall in *.
  intros e He. rewrite (HP e); auto.
Qed.

Lemma effects_no_stop effs :
  forallb is_action_effect effs = true -> none is_stop effs = true.
Proof. apply effects_none. now destruct e. Qed.

Lemma effects_no_clear effs :
  forallb is_action_effect effs = true -> none is_clear effs = true.
Proof. apply effects_none. now destruct e. Qed.

Lemma effects_no_get effs :
  forallb is_action_effect effs = true -> none is_get effs = true.
Proof. apply effects_none. now destruct e. Qed.

Lemma effects_no_set_handled effs :
  forallb is_action_effect effs = true -> none is_set_handled effs = true.
Proof. apply effects_none. now destruct e. Qed.

Lemma none_app P l l' : none P (l ++ l') = none P l && none P l'.
Proof. unfold none. apply forallb_app. Qed.

(** A turn that leaves the stop flag down has neither cleared the map nor
    raised the flag. *)
Lemma quiet_turn_events orph rest :
  orphan_events orph -> action_events rest false -> has_stop orph = false ->
  none is_stop (orph ++ rest) = true /\ none is_clear (orph ++ rest) = true.
Proof.
  intros Ho Ha Hs. rewrite !none_app.
  assert (none is_stop orph = true /\ none is_clear orph = true) as [-> ->]
    by (destruct Ho; simpl in *; try discriminate; now split).
  simpl. inversion Ha; subst; simpl.
  - now split.
  - now rewrite effects_no_stop, effects_no_clear.
  - rewrite !none_app, effects_no_stop, effects_no_clear by assumption.
    now split.
  - rewrite !none_app, effects_no_stop, effects_no_clear by assumption.
    now split.
Qed.

(** In the events of one turn, no [get] follows the clearing of the map,
    and at most one follows the first raising of the stop flag. *)
Lemma turn_events_gets orph rest raised :
  orphan_events orph -> action_events rest raised ->
  count_gets (after_first is_clear (orph ++ rest)) = 0
  /\ count_gets (after_first is_stop (orph ++ rest)) <= 1.
Proof.
  intros Ho Ha.
  assert (Hclear : count_gets (after_first is_clear rest) = 0).
  { inversion Ha; subst; simpl; try reflexivity.
    - now rewrite after_first_none by (now apply effects_no_clear).
    - rewrite after_first_skip by (now apply effects_no_clear). reflexivity.
    - rewrite after_first_skip by (now apply effects_no_clear). reflexivity.
    - rewrite after_first_skip by (now apply effects_no_clear). reflexivity.
    - rewrite after_first_skip by (now apply effects_no_clear). reflexivity. }
  assert (Hstop : count_gets (after_first is_stop rest) = 0).
  { inversion Ha; subst; simpl; try reflexivity.
    - now rewrite after_first_none by (now apply effects_no_stop).
    - rewrite after_first_skip by (now apply effects_no_stop). reflexivity.
    - rewrite after_first_skip by (now apply effects_no_stop). reflexivity.
    - rewrite after_first_skip by (now apply effects_no_stop). reflexivity.
    - rewrite after_first_skip by (now apply effects_no_stop). reflexivity. }
  assert (Hone : count_gets rest <= 1).
  { inversion Ha; subst; unfold count_gets; simpl; try lia.
    - fold (count_gets effs). rewrite count_gets_none; [lia|].
      now apply effects_no_get.
    - fold (count_gets (effs ++ [EvSetHandled a; EvTaskDone])).
      rewrite count_gets_app, count_gets_none by (now apply effects_no_get).
      unfold count_gets. simpl. lia.
    - fold (count_gets
              (effs ++ [EvClear; EvStop; EvSetHandled a; EvTaskDone])).
      rewrite count_gets_app, count_gets_none by (now apply effects_no_get).
      unfold count_gets. simpl. lia.
    - fold (count_gets (effs ++ [EvSetHandled a])).
      rewrite count_gets_app, count_gets_none by (now apply effects_no_get).
      unfold count_gets. simpl. lia.
    - fold (count_gets (effs ++ [EvClear; EvStop; EvSetHandled a])).
      rewrite count_gets_app, count_gets_none by (now apply effects_no_get).
      unfold count_gets. simpl. lia. }
  destruct Ho; simpl; rewrite ?Hclear, ?Hstop; split; auto.
Qed.

Lemma queue_join_spec w :
  queue_join w
  = if Nat.eqb (unfinished_tasks (_action_q (mux w))) 0
    then Ok tt w else Hang w.
Proof.
  unfold queue_join, bind, get_mux.
  now destruct (Nat.eqb (unfinished_tasks (_action_q (mux w))) 0).
Qed.

Lemma set_action_q_same m : set_action_q (_action_q m) m = m.
Proof. now destruct m. Qed.

Lemma world_eta w : mkWorld (mux w) (trace w) (next_oid w) = w.
Proof. now destruct w. Qed.

Section LoopFacts.
Variable wandb_internal : Data -> option Z -> option Z -> Worker.

(** With the stop flag up, [_loop] goes straight to the final [join]. *)
Lemma loop_stopped fuel sched w :
  _stopped (mux w) = true ->
  _loop wandb_internal fuel sched w
  = let w' :=
      mkWorld (set_action_q (final_queue sched (_action_q (mux w))) (mux w))
        (trace w) (next_oid w) in
    if Nat.eqb (unfinished_tasks (final_queue sched (_action_q (mux w)))) 0
    then Ok tt w' else Hang w'.
Proof.
  intros Hs. destruct sched as [|e rest]; simpl; rewrite Hs.
  - rewrite queue_join_spec, set_action_q_same, world_eta. reflexivity.
  - unfold bind. rewrite enqueue_spec, queue_join_spec. reflexivity.
Qed.

Lemma loop_stopped_trace fuel sched w :
  _stopped (mux w) = true ->
  trace (final_world (_loop wandb_internal fuel sched w)) = trace w.
Proof.
  intros Hs. rewrite loop_stopped by exact Hs. cbv zeta.
  now destruct (Nat.eqb _ 0).
Qed.

Lemma loop_running fuel e rest w :
  _stopped (mux w) = false ->
  final_world (_loop wandb_internal fuel (e :: rest) w)
  = match loop_body wandb_internal fuel e w with
    | Ok _ w' => final_world (_loop wandb_internal fuel rest w')
    | o => final_world o
    end.
Proof.
  intros Hs. simpl. rewrite Hs. unfold bind.
  now destruct (loop_body wandb_internal fuel e w).
Qed.

Lemma loop_gets_after_stop fuel sched : forall w,
  exists evs,
    trace (final_world (_loop wandb_internal fuel sched w)) = trace w ++ evs
    /\ count_gets (after_first is_clear evs) = 0
    /\ count_gets (after_first is_stop evs) <= 1.
Proof.
  induction sched as [|e rest IH]; intros w.
  - exists []. simpl. destruct (_stopped (mux w)).
    + rewrite queue_join_spec. destruct (Nat.eqb _ 0); simpl;
        rewrite app_nil_r; auto.
    + simpl. rewrite app_nil_r. auto.
  - destruct (_stopped (mux w)) eqn:Hs.
    + exists []. rewrite loop_stopped_trace by exact Hs.
      simpl. rewrite app_nil_r. auto.
    + rewrite loop_running by exact Hs.
      destruct (loop_body_shape wandb_internal fuel e w)
        as (orph & rst & raised & Htr & _ & Ho & _ & Ha & Hst).
      rewrite Hs in Hst. simpl in Hst.
      pose proof (turn_events_gets orph rst raised Ho Ha) as Hturn.
      destruct (loop_body wandb_internal fuel e w) as [[] w'|ex w'|w'|w'];
        simpl in Htr, Hst;
        try (exists (orph ++ rst); split; [exact Htr|exact Hturn]).
      destruct (_stopped (mux w')) eqn:Hs'.
      * exists (orph ++ rst). rewrite loop_stopped_trace by exact Hs'.
        split; [exact Htr|exact Hturn].
      * symmetry in Hst. apply orb_false_elim in Hst as [Hso ->].
        destruct (quiet_turn_events orph rst Ho Ha Hso) as [Hns Hnc].
        destruct (IH w') as (evs & Hevs & Hc & Hg).
        exists ((orph ++ rst) ++ evs).
        rewrite Hevs, Htr, !after_first_skip by assumption.
        rewrite <- !app_assoc. repeat split; assumption.
Qed.

End LoopFacts.

(** ** The stop flag and the queue *)

(** ** Orphan detection switched off *)

Lemma action_events_no_probe rest raised :
  action_events rest raised -> none is_probe rest = true.
Proof.
  assert (Heff : forall effs, forallb is_action_effect effs = true ->
                              none is_probe effs = true)
    by (intros effs; apply effects_none; intros ev; now destruct ev).
  intros Ha. inversion Ha; subst; simpl; auto;
    rewrite none_app, Heff by assumption; reflexivity.
Qed.

Lemma action_events_raised rest :
  action_events rest true ->
  exists a, In (EvGet a) rest /\ _action a = "teardown".
Proof.
  intros Ha. inversion Ha; subst; exists a; (split; [now left|assumption]).
Qed.

Section NoPid.
Variable wandb_internal : Data -> option Z -> option Z -> Worker.

Lemma loop_stops_only_by_teardown fuel sched : forall w,
  pid_truthy (_pid (mux w)) = false ->
  _stopped (mux w) = false ->
  _stopped (mux (final_world (_loop wandb_internal fuel sched w))) = true ->
  exists evs a,
    trace (final_world (_loop wandb_internal fuel sched w)) = trace w ++ evs
    /\ none is_probe evs = true
    /\ In (EvGet a) evs
    /\ _action a = "teardown".
Proof.
  induction sched as [|e rest IH]; intros w Hp Hs Hend.
  - simpl in Hend. rewrite Hs in Hend. simpl in Hend. congruence.
  - rewrite loop_running in * by exact Hs.
    destruct (loop_body_shape wandb_internal fuel e w)
      as (orph & rst & raised & Htr & Hpid & _ & Hno & Ha & Hst).
    rewrite (Hno Hp) in *. rewrite Hs in Hst. simpl in Htr, Hst.
    pose proof (action_events_no_probe _ _ Ha) as Hnp.
    destruct (loop_body wandb_internal fuel e w) as [[] w'|ex w'|w'|w'];
      simpl in Htr, Hst, Hpid, Hend;
      try (rewrite Hend in Hst; subst raised;
           destruct (action_events_raised _ Ha) as (a & Hin & Hk);
           exists rst, a; now repeat split).
    destruct (_stopped (mux w')) eqn:Hs'.
    + subst raised. destruct (action_events_raised _ Ha) as (a & Hin & Hk).
      exists rst, a. rewrite loop_stopped_trace by exact Hs'.
      now repeat split.
    + rewrite <- Hpid in Hp.
      destruct (IH w' Hp Hs' Hend) as (evs & a & Hevs & Hn & Hin & Hk).
      exists (rst ++ evs), a. rewrite Hevs, Htr, none_app, Hnp, Hn.
      rewrite <- app_assoc. repeat split; auto.
      apply in_or_app. now right.
Qed.
End NoPid.

(** C8: with no owner pid, or with pid 0, [_check_orphaned] returns False
    and changes nothing, the last-check timestamp included; the loop then
    never probes, and when it ends with the stop flag up, that is because a
    teardown action was taken off the queue. *)
Theorem no_pid_disables_orphan_detection :
  forall wandb_internal fuel sched w,
    _pid (mux w) = None \/ _pid (mux w) = Some 0%Z ->
    (forall now table, _check_orphaned now table w = Ok false w)
    /\ (_stopped (mux w) = false ->
        _stopped (mux (final_world (_loop wandb_internal fuel sched w))) = true ->
        exists evs a,
          trace (final_world (_loop wandb_internal fuel sched w))
          = trace w ++ evs
          /\ none is_probe evs = true
          /\ In (EvGet a) evs
          /\ _action a = "teardown").
Proof.
  intros wi fuel sched w Hpid.
  assert (Hp : pid_truthy (_pid (mux w)) = false)
    by (destruct Hpid as [-> | ->]; reflexivity).
  split.
  - intros now table. now apply check_orphaned_disabled.
  - now apply loop_stops_only_by_teardown.
Qed.

Lemma no_pid_disables_orphan_detection_witness :
  (_pid (mux (world_with_pid 0)) = None
   \/ _pid (mux (world_with_pid 0)) = Some 0%Z)
  /\ mux (world_with_pid 0) = set_pid 0 StreamMux_init
  /\ _check_orphaned 5%float (fun _ => false) (world_with_pid 0)
     = Ok false (world_with_pid 0)
  /\ exists evs a,
       trace (final_world
                (_loop sample_internal 0
                   [orphaned_turn 5%float []; orphaned_turn 9%float [teardown 1]]
                   (world_with_pid 0)))
       = trace (world_with_pid 0) ++ evs
       /\ none is_probe evs = true
       /\ In (EvGet a) evs
       /\ _action a = "teardown".
Proof.
  split; [right; reflexivity|]. split; [reflexivity|].
  destruct (no_pid_disables_orphan_detection sample_internal 0
              [orphaned_turn 5%float []; orphaned_turn 9%float [teardown 1]]
              (world_with_pid 0) (or_intror eq_refl)) as [H1 H2].
  split; [apply H1|]. apply H2; reflexivity.
Defined.

(** ** The throttled orphan check *)

Section Orphan.
Variable wandb_internal : Data -> option Z -> option Z -> Worker.

Lemma loop_body_keeps_stop fuel e w got w1 :
  loop_head e w = Ok got w1 ->
  _stopped (mux w1) = true ->
  _stopped (mux (final_world (loop_body wandb_internal fuel e w))) = true
  /\ exists evs,
       trace (final_world (loop_body wandb_internal fuel e w))
       = trace w1 ++ evs.
Proof.
  intros Hh Hs. rewrite (loop_body_unfold wandb_internal fuel e w got w1 Hh).
  destruct got as [action|].
  - destruct (process_action_shape wandb_internal fuel action w1)
      as (_ & evs & _ & Hcase).
    assert (Hgen : _stopped
                     (mux (final_world
                             (_process_action wandb_internal fuel action w1)))
                   = true
                   /\ exists evs',
                        trace (final_world
                                 (_process_action wandb_internal fuel action
                                    w1))
                        = trace w1 ++ evs').
    { destruct Hcase as [[Htr Hst]|(_ & _ & Htr & Hst & _)].
      - split; [congruence|eauto].
      - split; [assumption|eauto]. }
    destruct Hgen as (Hst & evs' & Htr).
    destruct (_process_action wandb_internal fuel action w1)
      as [[] w2|ex w2|w2|w2]; simpl in Hst, Htr;
      try (simpl; now eauto).
    rewrite handled_spec.
    destruct (unfinished_tasks (_action_q (mux w2))); simpl;
      (split; [assumption|]); rewrite Htr, <- app_assoc; eauto.
  - simpl. split; [assumption|]. exists []. now rewrite app_nil_r.
Qed.

Lemma loop_head_orphaned e w pid :
  _pid (mux w) = Some pid -> pid <> 0%Z ->
  throttled (_pid_checked_ts (mux w)) (time_now e) = false ->
  pid_exists e pid = false ->
  exists got w1,
    loop_head e w = Ok got w1
    /\ _stopped (mux w1) = true
    /\ trace w1 = trace w ++ [EvPidProbe pid false; EvStop] ++ got_events got.
Proof.
  intros Hpid Hnz Ht Hgone. unfold loop_head. unfold bind at 1.
  rewrite (check_orphaned_probes _ _ _ _ Hpid Hnz Ht), Hgone. simpl.
  unfold bind at 1. unfold bind at 1. unfold get_mux, put_mux, emit. simpl.
  match goal with
  | |- context [(enqueue _ ;; queue_get) ?w0] =>
      destruct (enqueue_get (arrivals e) w0)
        as (got & w1 & H & Ht1 & _ & _ & Hst1 & _)
  end.
  exists got, w1. rewrite H, Ht1, Hst1. simpl.
  rewrite <- !app_assoc. now repeat split.
Qed.
End Orphan.




(** ** The turn in which the owner is found gone *)

Section OrphanTurn.
Variable wandb_internal : Data -> option Z -> option Z -> Worker.

(** The turn that raises the stop flag goes on to its [get]. *)
Lemma loop_head_orphaned_get e w pid a r :
  _pid (mux w) = Some pid -> pid <> 0%Z ->
  throttled (_pid_checked_ts (mux w)) (time_now e) = false ->
  pid_exists e pid = false ->
  items (_action_q (mux w)) ++ arrivals e = a :: r ->
  exists w1,
    loop_head e w = Ok (Some a) w1
    /\ trace w1 = trace w ++ [EvPidProbe pid false; EvStop; EvGet a]
    /\ _stopped (mux w1) = true
    /\ _streams (mux w1) = _streams (mux w)
    /\ items (_action_q (mux w1)) = r.
Proof.
  intros Hpid Hnz Ht Hgone Hitems. unfold loop_head. unfold bind at 1.
  rewrite (check_orphaned_probes _ _ _ _ Hpid Hnz Ht), Hgone. simpl.
  unfold bind at 1. unfold bind at 1. unfold get_mux, put_mux, emit. simpl.
  unfold bind at 1. rewrite enqueue_spec. simpl.
  unfold queue_get, bind, get_mux, put_mux, emit. simpl. rewrite Hitems.
  eexists. split; [reflexivity|]. simpl.
  rewrite <- !app_assoc. now repeat split.
Qed.

Lemma loop_ends_with_stopping_turn fuel e rest w got w1 :
  _stopped (mux w) = false ->
  loop_head e w = Ok got w1 ->
  _stopped (mux w1) = true ->
  trace (final_world (_loop wandb_internal fuel (e :: rest) w))
  = trace (final_world (loop_body wandb_internal fuel e w)).
Proof.
  intros Hs Hh Hs1. rewrite loop_running by exact Hs.
  destruct (loop_body_keeps_stop wandb_internal fuel e w got w1 Hh Hs1)
    as (Hst & _).
  destruct (loop_body wandb_internal fuel e w) as [[] w'|ex w'|w'|w'];
    try reflexivity.
  simpl in Hst. now rewrite loop_stopped_trace.
Qed.
End OrphanTurn.

(** C10, as the code has it: the stop flag is looked at only at the top of
    the [while].  After a teardown has cleared the map and raised the flag,
    no action is taken off the queue any more.  After orphan detection has
    raised the flag, the turn goes on to its bounded [get]: the action at
    the head of the queue, if there is one, is dequeued and processed, and
    its completion signal set when the processing returns; no [get]
    follows that turn.  From then on [_loop] only waits in the final
    [join] of the queue: it returns when no task is unfinished and blocks
    for ever otherwise, and the actions still queued, or arriving then,
    are never dequeued and their completion signals never set. *)
Theorem stop_flag_ends_dequeuing :
  forall wandb_internal fuel sched w,
    (exists evs,
       trace (final_world (_loop wandb_internal fuel sched w)) = trace w ++ evs
       /\ count_gets (after_first is_clear evs) = 0
       /\ count_gets (after_first is_stop evs) <= 1)
    /\ (_stopped (mux w) = true ->
        _loop wandb_internal fuel sched w
        = let w' :=
            mkWorld
              (set_action_q (final_queue sched (_action_q (mux w))) (mux w))
              (trace w) (next_oid w) in
          if Nat.eqb (unfinished_tasks (final_queue sched (_action_q (mux w))))
               0
          then Ok tt w' else Hang w')
    /\ (forall e rest pid a r,
          sched = e :: rest ->
          _stopped (mux w) = false ->
          _pid (mux w) = Some pid -> pid <> 0%Z ->
          throttled (_pid_checked_ts (mux w)) (time_now e) = false ->
          pid_exists e pid = false ->
          items (_action_q (mux w)) ++ arrivals e = a :: r ->
          exists w1,
            loop_head e w = Ok (Some a) w1
            /\ trace w1 = trace w ++ [EvPidProbe pid false; EvStop; EvGet a]
            /\ _stopped (mux w1) = true
            /\ items (_action_q (mux w1)) = r
            /\ loop_body wandb_internal fuel e w
               = match _process_action wandb_internal fuel a w1 with
                 | Ok _ w2 => (set_handled a ;; task_done) w2
                 | Raise ex w2 => Raise ex w2
                 | Hang w2 => Hang w2
                 | OutOfFuel w2 => OutOfFuel w2
                 end
            /\ trace (final_world (_loop wandb_internal fuel sched w))
               = trace (final_world (loop_body wandb_internal fuel e w))).
Proof.
  intros wi fuel sched w. split; [|split].
  - apply loop_gets_after_stop.
  - apply loop_stopped.
  - intros e rest pid a r -> Hs Hpid Hnz Ht Hgone Hitems.
    destruct (loop_head_orphaned_get e w pid a r Hpid Hnz Ht Hgone Hitems)
      as (w1 & Hh & Htr & Hs1 & _ & Hr).
    exists w1. split; [exact Hh|]. split; [exact Htr|].
    split; [exact Hs1|]. split; [exact Hr|]. split.
    + exact (loop_body_unfold wi fuel e w (Some a) w1 Hh).
    + exact (loop_ends_with_stopping_turn wi fuel e rest w _ w1 Hs Hh Hs1).
Qed.

Lemma stop_flag_ends_dequeuing_witness :
  _stopped (mux (final_world
                   (_loop sample_internal 0 [calm [teardown 0]] world_init)))
  = true
  /\ _loop sample_internal 0 [calm [add_stream "late" cfg1]]
       (final_world (_loop sample_internal 0 [calm [teardown 0]] world_init))
     = Hang
         (mkWorld
            (set_action_q (mkActionQueue [add_stream "late" cfg1] 1)
               (set_stopped true StreamMux_init))
            [EvGet (teardown 0); EvClear; EvStop; EvSetHandled (teardown 0);
             EvTaskDone]
            0)
  /\ _stopped (mux (world_with_pid 7)) = false
  /\ _pid (mux (world_with_pid 7)) = Some 7%Z
  /\ 7%Z <> 0%Z
  /\ throttled (_pid_checked_ts (mux (world_with_pid 7))) 5%float = false
  /\ exists w1,
       loop_head (orphaned_turn 5%float [add_stream "a" cfg1])
         (world_with_pid 7)
       = Ok (Some (add_stream "a" cfg1)) w1
       /\ trace w1
          = [EvPidProbe 7 false; EvStop; EvGet (add_stream "a" cfg1)]
       /\ _stopped (mux w1) = true.
Proof.
  assert (Hnz : 7%Z <> 0%Z) by discriminate.
  split; [reflexivity|]. split.
  - rewrite (proj1 (proj2 (stop_flag_ends_dequeuing sample_internal 0
                             [calm [add_stream "late" cfg1]]
                             (final_world
                                (_loop sample_internal 0 [calm [teardown 0]]
                                   world_init))))
               eq_refl).
    reflexivity.
  - split; [reflexivity|]. split; [reflexivity|]. split; [exact Hnz|].
    split; [reflexivity|].
    destruct (proj2 (proj2 (stop_flag_ends_dequeuing sample_internal 0
                              [orphaned_turn 5%float [add_stream "a" cfg1];
                               calm []]
                              (world_with_pid 7)))
                (orphaned_turn 5%float [add_stream "a" cfg1]) [calm []]
                7%Z (add_stream "a" cfg1) []
                eq_refl eq_refl eq_refl Hnz eq_refl eq_refl eq_refl)
      as (w1 & Hh & Htr & Hs1 & _).
    exists w1. split; [exact Hh|]. split; [exact Htr|exact Hs1].
Defined.

(** C10 fails as stated: the owner is gone, the orphan check raises the
    stop flag, and the same turn still dequeues and processes the add that
    is on the queue. *)
Lemma orphan_stop_still_dequeues :
  let o :=
    _loop sample_internal 0
      [orphaned_turn 5%float [add_stream "a" cfg1]; calm []]
      (world_with_pid 7) in
  trace (final_world o)
  = [EvPidProbe 7 false; EvStop; EvGet (add_stream "a" cfg1);
     EvThreadStart 0; EvStatus 0 true; EvRegister "a" 0;
     EvSetHandled (add_stream "a" cfg1); EvTaskDone]
  /\ has_stream "a" (mux (final_world o)) = true.
Proof. cbv zeta. split; reflexivity. Qed.

(** ** The completion signal *)

Lemma count_set_handled_app l l' :
  count_set_handled (l ++ l') = count_set_handled l + count_set_handled l'.
Proof. unfold count_set_handled. now rewrite filter_app, length_app. Qed.

Lemma count_set_handled_none l :
  none is_set_handled l = true -> count_set_handled l = 0.
Proof.
  unfold none, count_set_handled.
  induction l as [|e l IH]; simpl; [reflexivity|].
  intros H. apply andb_prop in H as [He Hl].
  apply negb_true_iff in He. rewrite He. auto.
Qed.

Lemma orphan_events_no_set_handled orph :
  orphan_events orph -> count_set_handled orph = 0.
Proof. intros H. now destruct H. Qed.

(** C5, as the code has it: the completion signal of an action taken off
    the queue is set at most once.  It is set once, as the last thing but
    the queue's [task_done], when the processing of the action returns,
    and the map and the stop flag are then as the processing left them.
    When the processing raises, blocks or does not end, the turn ends the
    same way and the signal is not set. *)
Theorem completion_signal_after_effects :
  forall wandb_internal fuel e w w1 action,
    queue_ok (_action_q (mux w)) ->
    loop_head e w = Ok (Some action) w1 ->
    exists effects,
      trace (final_world (_process_action wandb_internal fuel action w1))
      = trace w1 ++ effects
      /\ count_set_handled (trace w1) = count_set_handled (trace w)
      /\ count_set_handled effects = 0
      /\ match _process_action wandb_internal fuel action w1 with
         | Ok _ w2 =>
             exists w3,
               loop_body wandb_internal fuel e w = Ok tt w3
               /\ trace w3 = trace w2 ++ [EvSetHandled action; EvTaskDone]
               /\ _streams (mux w3) = _streams (mux w2)
               /\ _stopped (mux w3) = _stopped (mux w2)
         | o => loop_body wandb_internal fuel e w = o
         end.
Proof.
  intros wi fuel e w w1 action Hq Hh.
  destruct (loop_head_shape e w)
    as (got & w1' & orph & Hh' & Ht1 & _ & _ & Ho & _ & _ & Hq1).
  rewrite Hh in Hh'. inversion Hh'; subst got w1'. clear Hh'.
  destruct (Hq1 Hq) as [_ Hpos]. specialize (Hpos ltac:(discriminate)).
  destruct (process_action_shape wi fuel action w1)
    as ((_ & _ & Hsame & _) & evs & Heff & Hcase).
  assert (Hex : exists effects,
             trace (final_world (_process_action wi fuel action w1))
             = trace w1 ++ effects
             /\ count_set_handled effects = 0).
  { destruct Hcase as [[Htr _]|(_ & _ & Htr & _)].
    - exists evs. split; [exact Htr|].
      apply count_set_handled_none. now apply effects_no_set_handled.
    - exists (evs ++ [EvClear; EvStop]). split; [exact Htr|].
      rewrite count_set_handled_app, count_set_handled_none
        by (now apply effects_no_set_handled).
      reflexivity. }
  destruct Hex as (effects & Htr & Hcount).
  exists effects. split; [exact Htr|]. split.
  - rewrite Ht1, !count_set_handled_app.
    rewrite (orphan_events_no_set_handled orph Ho).
    unfold count_set_handled at 2. simpl. lia.
  - split; [exact Hcount|].
    rewrite (loop_body_unfold wi fuel e w _ w1 Hh).
    destruct (_process_action wi fuel action w1) as [[] w2|ex w2|w2|w2];
      try reflexivity.
    simpl in Hsame. rewrite handled_spec, Hsame.
    destruct (unfinished_tasks (_action_q (mux w1))) as [|n]; [lia|].
    eexists. split; [reflexivity|]. simpl. repeat split.
Qed.

Lemma completion_signal_after_effects_witness :
  queue_ok (_action_q (mux world_init))
  /\ loop_head (calm [add_stream "a" cfg1]) world_init
  = Ok (Some (add_stream "a" cfg1))
      (final_world (loop_head (calm [add_stream "a" cfg1]) world_init))
  /\ exists effects,
       trace (final_world
                (_process_action sample_internal 0 (add_stream "a" cfg1)
                   (final_world
                      (loop_head (calm [add_stream "a" cfg1]) world_init))))
       = trace (final_world
                  (loop_head (calm [add_stream "a" cfg1]) world_init))
           ++ effects
       /\ count_set_handled effects = 0.
Proof.
  assert (Hq : queue_ok (_action_q (mux world_init)))
    by (unfold queue_ok; simpl; lia).
  split; [exact Hq|]. split; [reflexivity|].
  destruct (completion_signal_after_effects sample_internal 0
              (calm [add_stream "a" cfg1]) world_init
              (final_world (loop_head (calm [add_stream "a" cfg1]) world_init))
              (add_stream "a" cfg1) Hq eq_refl)
    as (effects & Htr & _ & Hc & _).
  exists effects. split; assumption.
Defined.

(** C5 fails as stated: the drop of the unknown id "x" is taken off the
    queue and processed, the processing raises, and its completion signal
    is never set. *)
Lemma failed_action_is_never_signalled :
  let o :=
    _loop sample_internal 0 [calm [drop_stream "x"]; calm []] world_init in
  o = Raise (KeyError "x") (final_world o)
  /\ trace (final_world o) = [EvGet (drop_stream "x")]
  /\ count_set_handled (trace (final_world o)) = 0.
Proof. cbv zeta. repeat split; reflexivity. Qed.

(** ** Registration follows an acknowledged start *)

Lemma forallb_set {V} (P : string * V -> bool) k v (d : Dict.t V) :
  (forall k1 k2 x, P (k1, x) = P (k2, x)) ->
  forallb P d = true -> P (k, v) = true -> forallb P (Dict.set k v d) = true.
Proof.
  intros Hk Hd Hv. induction d as [|[k' v'] d IH]; simpl in *.
  - now rewrite Hv.
  - apply andb_prop in Hd as [H1 H2].
    destruct (String.eqb k' k); simpl.
    + now rewrite Hv, H2.
    + now rewrite H1, IH.
Qed.

Lemma forallb_remove {V} (P : string * V -> bool) k (d : Dict.t V) :
  forallb P d = true -> forallb P (Dict.remove k d) = true.
Proof.
  intros Hd. induction d as [|[k' v'] d IH]; simpl in *; [reflexivity|].
  apply andb_prop in Hd as [H1 H2].
  destruct (String.eqb k' k); simpl; [assumption|].
  now rewrite H1, IH.
Qed.

Section AddFacts.
Variable wandb_internal : Data -> option Z -> option Z -> Worker.

Lemma process_add_spec action w :
  let oid := next_oid w in
  let worker :=
    wandb_internal (_data action) (_port (mux w)) (_pid (mux w)) in
  let stream :=
    mkStreamRecord oid
      (Some (mkStreamThread (_data action) (_port (mux w)) (_pid (mux w))
               worker true))
      false 0 in
  _process_add wandb_internal action w
  = if status_reply worker
    then Ok tt
           (mkWorld
              (set_streams
                 (Dict.set (_stream_id action) stream (_streams (mux w)))
                 (mux w))
              (trace w ++ [EvThreadStart oid; EvStatus oid true;
                           EvRegister (_stream_id action) oid])
              (S oid))
    else Raise (AssertionError "")
           (mkWorld (mux w)
              (trace w ++ [EvThreadStart oid; EvStatus oid false])
              (S oid)).
Proof.
  cbv zeta.
  unfold _process_add, bind, StreamRecord_init, get_mux, start_thread, bind,
    emit, _wait_thread_active, bind, emit, communicate_status, log.
  simpl.
  destruct (status_reply
              (wandb_internal (_data action) (_port (mux w)) (_pid (mux w))));
    simpl; unfold put_mux, log; simpl; rewrite <- !app_assoc; reflexivity.
Qed.
End AddFacts.

Lemma in_keys_set {V} k (v : V) d x :
  In x (Dict.keys (Dict.set k v d)) -> x = k \/ In x (Dict.keys d).
Proof.
  induction d as [|[k' v'] d IH]; simpl.
  - intros [H|[]]. now left.
  - destruct (String.eqb_spec k' k) as [->|Hne]; simpl.
    + intros [H|H]; [now left|right; now right].
    + intros [H|H]; [right; now left|].
      destruct (IH H); [now left|right; now right].
Qed.

Lemma in_keys_remove {V} k (d : Dict.t V) x :
  In x (Dict.keys (Dict.remove k d)) -> In x (Dict.keys d).
Proof.
  induction d as [|[k' v'] d IH]; simpl; [tauto|].
  destruct (String.eqb k' k); simpl; [now right|].
  intros [H|H]; [now left|right; auto].
Qed.

Lemma wf_set {V} k (v : V) d : Dict.wf d -> Dict.wf (Dict.set k v d).
Proof.
  unfold Dict.wf. induction d as [|[k' v'] d IH]; simpl; intros H.
  - constructor; [intros []|constructor].
  - inversion H as [|? ? Hnin Hnd]; subst.
    destruct (String.eqb_spec k' k) as [->|Hne]; simpl.
    + now constructor.
    + constructor; [|auto].
      intros Hin. apply in_keys_set in Hin as [->|Hin]; contradiction.
Qed.

Lemma wf_remove {V} k (d : Dict.t V) : Dict.wf d -> Dict.wf (Dict.remove k d).
Proof.
  unfold Dict.wf. induction d as [|[k' v'] d IH]; simpl; intros H.
  - constructor.
  - inversion H as [|? ? Hnin Hnd]; subst.
    destruct (String.eqb k' k); simpl; [assumption|].
    constructor; [|auto].
    intros Hin. apply Hnin. now apply in_keys_remove in Hin.
Qed.

(** A property of the map that holds of the empty map and survives the
    registration of an acknowledged context and the removal of a key holds
    after every action and every run of the loop. *)
Section MapInvariant.
Variable wandb_internal : Data -> option Z -> option Z -> Worker.
Variable P : Dict.t StreamRecord -> Prop.
Hypothesis P_empty : P Dict.empty.
Hypothesis P_set :
  forall k s d, communicate_status s = true -> P d -> P (Dict.set k s d).
Hypothesis P_remove : forall k d, P d -> P (Dict.remove k d).

Lemma pop_stream_keeps sid w :
  P (_streams (mux w)) ->
  P (_streams (mux (final_world (pop_stream sid w)))).
Proof.
  intros H. unfold pop_stream, bind, get_mux, Dict.pop.
  destruct (Dict.get sid (_streams (mux w))); simpl; [|exact H].
  now apply P_remove.
Qed.

Lemma process_action_keeps fuel action w :
  P (_streams (mux w)) ->
  P (_streams
       (mux (final_world (_process_action wandb_internal fuel action w)))).
Proof.
  intros H. unfold _process_action.
  destruct (String.eqb (_action action) "add").
  { rewrite process_add_spec. cbv zeta.
    destruct (status_reply _) eqn:Hs; simpl; [|exact H].
    apply P_set; [|exact H].
    unfold communicate_status. simpl. exact Hs. }
  destruct (String.eqb (_action action) "del").
  { unfold _process_del, bind.
    pose proof (pop_stream_keeps (_stream_id action) w H) as Hp.
    destruct (pop_stream (_stream_id action) w) as [s w1|ex w1|w1|w1];
      simpl in Hp; try exact Hp.
    destruct (join_only_logs s w1) as (evs & -> & _). exact Hp. }
  destruct (String.eqb (_action action) "drop").
  { unfold _process_drop, bind.
    pose proof (pop_stream_keeps (_stream_id action) w H) as Hp.
    destruct (pop_stream (_stream_id action) w) as [s w1|ex w1|w1|w1];
      simpl in Hp; try exact Hp.
    unfold drop, bind, emit, ret.
    match goal with
    | |- context [join ?s' ?w'] =>
        destruct (join_only_logs s' w') as (evs & -> & _)
    end.
    exact Hp. }
  destruct (String.eqb (_action action) "teardown").
  { rewrite process_teardown_unfold.
    destruct (finish_all_only_logs fuel (_streams (mux w)) (_data action) w)
      as (evs & Hw & _).
    destruct (_finish_all fuel (_streams (mux w)) (_data action) w)
      as [[] w1|ex w1|w1|w1]; simpl in Hw; subst w1; simpl;
      try exact H.
    exact P_empty. }
  exact H.
Qed.

Lemma loop_body_keeps fuel e w :
  P (_streams (mux w)) ->
  P (_streams (mux (final_world (loop_body wandb_internal fuel e w)))).
Proof.
  intros H.
  destruct (loop_head_shape e w) as (got & w1 & orph & Hh & _ & _ & Hs & _).
  rewrite (loop_body_unfold wandb_internal fuel e w got w1 Hh).
  rewrite <- Hs in H.
  destruct got as [action|]; [|exact H].
  pose proof (process_action_keeps fuel action w1 H) as Hp.
  destruct (_process_action wandb_internal fuel action w1)
    as [[] w2|ex w2|w2|w2]; simpl in Hp; try exact Hp.
  rewrite handled_spec.
  now destruct (unfinished_tasks (_action_q (mux w2))).
Qed.

Lemma loop_keeps fuel sched : forall w,
  P (_streams (mux w)) ->
  P (_streams (mux (final_world (_loop wandb_internal fuel sched w)))).
Proof.
  induction sched as [|e rest IH]; intros w H.
  - simpl. destruct (_stopped (mux w)); [|exact H].
    rewrite queue_join_spec. now destruct (Nat.eqb _ 0).
  - destruct (_stopped (mux w)) eqn:Hs.
    + rewrite loop_stopped by exact Hs. cbv zeta.
      now destruct (Nat.eqb _ 0).
    + rewrite loop_running by exact Hs.
      pose proof (loop_body_keeps fuel e w H) as Hb.
      destruct (loop_body wandb_internal fuel e w)
        as [[] w'|ex w'|w'|w']; simpl in Hb; auto.
Qed.
End MapInvariant.

Section Registration.
Variable wandb_internal : Data -> option Z -> option Z -> Worker.

Lemma acknowledged_set k s d :
  communicate_status s = true -> acknowledged d ->
  acknowledged (Dict.set k s d).
Proof.
  intros Hs Hd. apply forallb_set; [reflexivity|exact Hd|exact Hs].
Qed.

Lemma process_action_acknowledged fuel action w :
  all_acknowledged (mux w) = true ->
  all_acknowledged
    (mux (final_world (_process_action wandb_internal fuel action w)))
  = true.
Proof.
  apply (process_action_keeps wandb_internal acknowledged);
    [reflexivity|exact acknowledged_set|].
  intros k d. apply forallb_remove.
Qed.

Lemma loop_acknowledged fuel sched w :
  all_acknowledged (mux w) = true ->
  all_acknowledged
    (mux (final_world (_loop wandb_internal fuel sched w))) = true.
Proof.
  apply (loop_keeps wandb_internal acknowledged);
    [reflexivity|exact acknowledged_set|].
  intros k d. apply forallb_remove.
Qed.

(** The maps the supervisor builds are well-formed dicts. *)
Lemma loop_keeps_wf fuel sched w :
  Dict.wf (_streams (mux w)) ->
  Dict.wf (_streams (mux (final_world (_loop wandb_internal fuel sched w)))).
Proof.
  apply (loop_keeps wandb_internal Dict.wf).
  - constructor.
  - intros k s d _. apply wf_set.
  - intros k d. apply wf_remove.
Qed.
End Registration.

(** C9: an add registers its context only after the context's thread has
    been started and the status probe has been answered: the registration
    is the last step, and when the probe is not acknowledged the assertion
    fails and nothing is registered.  Hence every operation, and every run
    of the control loop from a new supervisor, leaves only contexts in the
    map whose started worker acknowledged the probe. *)
Theorem registration_follows_acknowledged_start :
  forall wandb_internal fuel,
    (forall action w,
       _action action = "add" ->
       let oid := next_oid w in
       if status_reply
            (wandb_internal (_data action) (_port (mux w)) (_pid (mux w)))
       then
         exists w' s,
           _process_action wandb_internal fuel action w = Ok tt w'
           /\ trace w' = trace w ++ [EvThreadStart oid; EvStatus oid true;
                                     EvRegister (_stream_id action) oid]
           /\ get_stream (_stream_id action) (mux w') = Some s
           /\ _oid s = oid
           /\ communicate_status s = true
       else
         exists w',
           _process_action wandb_internal fuel action w
           = Raise (AssertionError "") w'
           /\ trace w' = trace w ++ [EvThreadStart oid; EvStatus oid false]
           /\ _streams (mux w') = _streams (mux w))
    /\ (forall action w,
          all_acknowledged (mux w) = true ->
          all_acknowledged
            (mux (final_world (_process_action wandb_internal fuel action w)))
          = true)
    /\ (forall sched,
          all_acknowledged
            (mux (final_world (_loop wandb_internal fuel sched world_init)))
          = true).
Proof.
  intros wi fuel. split; [|split].
  - intros action w Hk oid. rewrite dispatch_add by exact Hk.
    rewrite process_add_spec. cbv zeta.
    destruct (status_reply _) eqn:Hs.
    + eexists. eexists. split; [reflexivity|]. simpl.
      split; [reflexivity|]. unfold get_stream. simpl.
      split; [apply DictFacts.get_set_same|].
      split; [reflexivity|]. unfold communicate_status. simpl. exact Hs.
    + eexists. split; [reflexivity|]. simpl. now split.
  - intros action w. apply process_action_acknowledged.
  - intros sched. apply loop_acknowledged. reflexivity.
Qed.

Lemma registration_follows_acknowledged_start_witness :
  _action (add_stream "a" cfg1) = "add"
  /\ (exists w' s,
        _process_action sample_internal 0 (add_stream "a" cfg1) world_init
        = Ok tt w'
        /\ trace w' = trace world_init
                        ++ [EvThreadStart 0; EvStatus 0 true; EvRegister "a" 0]
        /\ get_stream "a" (mux w') = Some s
        /\ _oid s = 0
        /\ communicate_status s = true)
  /\ all_acknowledged (mux (world_with two_pending)) = true
  /\ all_acknowledged
       (mux (final_world
               (_process_action sample_internal 0 (add_stream "a" NoData)
                  (world_with two_pending))))
     = true
  /\ all_acknowledged
       (mux (final_world
               (_loop sample_internal 3
                  [calm [add_stream "a" cfg1; add_stream "b" NoData];
                   calm []; calm [teardown 0]]
                  world_init)))
     = true.
Proof.
  split; [reflexivity|].
  destruct (registration_follows_acknowledged_start sample_internal 0)
    as (Hadd & Hstep & _).
  destruct (registration_follows_acknowledged_start sample_internal 3)
    as (_ & _ & Hloop).
  split; [exact (Hadd (add_stream "a" cfg1) world_init eq_refl)|].
  split; [reflexivity|].
  split; [apply Hstep; reflexivity|apply Hloop].
Defined.

(** ** More facts about dicts *)

Lemma contains_iff_in {V} k (d : Dict.t V) :
  Dict.contains k d = true <-> In k (Dict.keys d).
Proof.
  split; [apply DictFacts.contains_true_in|].
  intros H. unfold Dict.contains.
  destruct (DictFacts.get_in k d H) as [v ->]. reflexivity.
Qed.

Lemma get_some_in {V} k (v : V) d : Dict.get k d = Some v -> In (k, v) d.
Proof.
  induction d as [|[k' v'] d IH]; simpl; [discriminate|].
  destruct (String.eqb_spec k' k) as [->|Hne].
  - intros H. inversion H. now left.
  - intros H. right. auto.
Qed.

Lemma get_remove_other {V} k k' (d : Dict.t V) :
  k' <> k -> Dict.get k' (Dict.remove k d) = Dict.get k' d.
Proof.
  intros Hne. induction d as [|[k0 v0] d IH]; simpl; [reflexivity|].
  destruct (String.eqb_spec k0 k) as [->|Hk]; simpl.
  - destruct (String.eqb_spec k k'); [congruence|reflexivity].
  - destruct (String.eqb_spec k0 k'); [reflexivity|exact IH].
Qed.

Lemma keys_remove_notin {V} k (d : Dict.t V) :
  ~ In k (Dict.keys d) -> Dict.remove k d = d.
Proof.
  induction d as [|[k' v'] d IH]; simpl; intros H; [reflexivity|].
  destruct (String.eqb_spec k' k) as [->|Hne].
  - exfalso. apply H. now left.
  - f_equal. apply IH. intros Hin. apply H. now right.
Qed.

Lemma keys_remove {V} k (d : Dict.t V) :
  Dict.wf d ->
  Dict.keys (Dict.remove k d)
  = filter (fun x => negb (String.eqb x k)) (Dict.keys d).
Proof.
  unfold Dict.wf. induction d as [|[k' v'] d IH]; simpl; intros H.
  - reflexivity.
  - inversion H as [|? ? Hnin Hnd]; subst.
    destruct (String.eqb_spec k' k) as [->|Hne]; simpl.
    + rewrite <- IH by exact Hnd.
      now rewrite keys_remove_notin by exact Hnin.
    + f_equal. auto.
Qed.

Lemma contains_remove {V} k (d : Dict.t V) :
  Dict.wf d -> Dict.contains k (Dict.remove k d) = false.
Proof.
  intros Hwf. destruct (Dict.contains k (Dict.remove k d)) eqn:E; [|reflexivity].
  apply contains_iff_in in E. rewrite keys_remove in E by exact Hwf.
  apply filter_In in E as [_ E]. now rewrite String.eqb_refl in E.
Qed.

Lemma remove_set_absent {V} k (v : V) d :
  ~ In k (Dict.keys d) -> Dict.remove k (Dict.set k v d) = d.
Proof.
  induction d as [|[k' v'] d IH]; simpl; intros H.
  - now rewrite String.eqb_refl.
  - destruct (String.eqb_spec k' k) as [->|Hne]; simpl.
    + exfalso. apply H. now left.
    + destruct (String.eqb_spec k' k); [contradiction|].
      f_equal. apply IH. intros Hin. apply H. now right.
Qed.

Lemma pop_present {V} k (v : V) d :
  Dict.get k d = Some v -> Dict.pop k d = Some (v, Dict.remove k d).
Proof. intros H. unfold Dict.pop. now rewrite H. Qed.

(** ** The accessors *)

(** X1: the three accessors agree: an id passes the membership test
    exactly when it is among the listed ids and exactly when the fetch by
    id finds a context; the context fetched is the one stored under the
    id. *)
Theorem accessors_agree :
  forall m stream_id,
    (has_stream stream_id m = true <-> In stream_id (stream_names m))
    /\ (has_stream stream_id m = true
        <-> exists s, get_stream stream_id m = Some s)
    /\ (has_stream stream_id m = false <-> get_stream stream_id m = None)
    /\ (forall s, get_stream stream_id m = Some s ->
                  In (stream_id, s) (_streams m)).
Proof.
  intros m sid. unfold has_stream, stream_names, get_stream.
  split; [apply contains_iff_in|]. unfold Dict.contains.
  split; [|split].
  - destruct (Dict.get sid (_streams m)) as [s|].
    + split; [eauto|reflexivity].
    + split; [discriminate|]. intros [s Hs]. discriminate.
  - destruct (Dict.get sid (_streams m)); split; congruence.
  - intros s. apply get_some_in.
Qed.

Lemma accessors_agree_witness :
  has_stream "b" (set_streams two_pending StreamMux_init) = true
  /\ In "b" (stream_names (set_streams two_pending StreamMux_init))
  /\ get_stream "zz" (set_streams two_pending StreamMux_init) = None.
Proof.
  destruct (accessors_agree (set_streams two_pending StreamMux_init) "b")
    as (H1 & _).
  destruct (accessors_agree (set_streams two_pending StreamMux_init) "zz")
    as (_ & _ & H3 & _).
  split; [reflexivity|].
  split; [apply H1; reflexivity|apply H3; reflexivity].
Defined.

(** ** Removing and disowning a registered stream *)

Lemma pop_stream_present sid s w :
  Dict.get sid (_streams (mux w)) = Some s ->
  pop_stream sid w = Ok s (popped_world sid [EvUnregister sid (_oid s)] w).
Proof.
  intros H. unfold pop_stream, bind, get_mux.
  now rewrite (pop_present _ _ _ H).
Qed.

Lemma join_spec s w :
  join s w = if joinable s then Ok tt (log [EvJoin (_oid s)] w)
             else Hang (log [EvJoin (_oid s)] w).
Proof.
  unfold join, bind, emit, joinable.
  destruct (_thread s) as [th|]; [|reflexivity].
  now destruct (thread_exits (_target th)).
Qed.

Lemma popped_world_facts sid evs w :
  Dict.wf (_streams (mux w)) ->
  has_stream sid (mux (popped_world sid evs w)) = false
  /\ stream_names (mux (popped_world sid evs w))
     = filter (fun k => negb (String.eqb k sid)) (stream_names (mux w))
  /\ (forall k, k <> sid ->
        get_stream k (mux (popped_world sid evs w)) = get_stream k (mux w))
  /\ same_config (mux w) (mux (popped_world sid evs w))
  /\ _stopped (mux (popped_world sid evs w)) = _stopped (mux w).
Proof.
  intros Hwf. unfold has_stream, stream_names, get_stream. simpl.
  split; [now apply contains_remove|].
  split; [now apply keys_remove|].
  split; [intros k Hne; now apply get_remove_other|].
  split; [config_tac|reflexivity].
Qed.

(** X2: a del action for a registered id takes the id's context out of the
    map and then joins it.  The id is no longer registered, the other ids
    keep their order and their contexts, and nothing but the map changes.
    When the worker's thread never exits the join blocks for ever, with
    the id already taken out of the map. *)
Theorem del_removes_then_joins :
  forall wandb_internal fuel action w s,
    _action action = "del" ->
    Dict.wf (_streams (mux w)) ->
    get_stream (_stream_id action) (mux w) = Some s ->
    let sid := _stream_id action in
    let w' := popped_world sid [EvUnregister sid (_oid s); EvJoin (_oid s)] w in
    _process_action wandb_internal fuel action w
    = (if joinable s then Ok tt w' else Hang w')
    /\ has_stream sid (mux w') = false
    /\ stream_names (mux w')
       = filter (fun k => negb (String.eqb k sid)) (stream_names (mux w))
    /\ (forall k, k <> sid -> get_stream k (mux w') = get_stream k (mux w))
    /\ same_config (mux w) (mux w')
    /\ _stopped (mux w') = _stopped (mux w).
Proof.
  intros wi fuel action w s Hk Hwf Hget sid w'. subst sid w'. split.
  - rewrite dispatch_del by exact Hk. unfold _process_del, bind.
    rewrite (pop_stream_present _ _ _ Hget), join_spec.
    unfold popped_world. rewrite log_log. reflexivity.
  - now apply popped_world_facts.
Qed.

Lemma del_removes_then_joins_witness :
  _action (del_stream "a") = "del"
  /\ Dict.wf (_streams (mux (world_with two_pending)))
  /\ get_stream "a" (mux (world_with two_pending))
     = Some (running_record 0 cfg1 (prompt_worker 1))
  /\ stream_names
       (mux (final_world
               (_process_action sample_internal 0 (del_stream "a")
                  (world_with two_pending))))
     = ["b"].
Proof.
  split; [reflexivity|]. split; [exact two_pending_wf|].
  split; [reflexivity|].
  destruct (del_removes_then_joins sample_internal 0 (del_stream "a")
              (world_with two_pending) _ eq_refl two_pending_wf eq_refl)
    as (Hrun & _ & Hnames & _).
  rewrite Hrun. simpl. exact Hnames.
Defined.

(** X3: a drop action for an unregistered id raises [KeyError] and changes
    nothing.  For a registered id it takes the context out of the map,
    marks its interface as dropped and then joins it, without publishing
    an exit code or polling it; the map is left as after a del. *)
Theorem drop_detaches_then_joins :
  forall wandb_internal fuel action w,
    _action action = "drop" ->
    let sid := _stream_id action in
    (has_stream sid (mux w) = false ->
     _process_action wandb_internal fuel action w = Raise (KeyError sid) w)
    /\ (forall s,
          Dict.wf (_streams (mux w)) ->
          get_stream sid (mux w) = Some s ->
          let w' :=
            popped_world sid
              [EvUnregister sid (_oid s); EvDropFlag (_oid s);
               EvJoin (_oid s)] w in
          _process_action wandb_internal fuel action w
          = (if joinable s then Ok tt w' else Hang w')
          /\ has_stream sid (mux w') = false
          /\ stream_names (mux w')
             = filter (fun k => negb (String.eqb k sid))
                 (stream_names (mux w))
          /\ (forall k, k <> sid ->
                get_stream k (mux w') = get_stream k (mux w))).
Proof.
  intros wi fuel action w Hk sid.
  assert (Hd : _process_action wi fuel action w = _process_drop action w).
  { unfold _process_action. now rewrite Hk. }
  rewrite Hd. split.
  - intros Habs. subst sid.
    unfold _process_drop, bind, pop_stream, bind, get_mux.
    unfold has_stream in Habs. now rewrite (pop_absent _ _ Habs).
  - intros s Hwf Hget w'. subst sid w'. split.
    + unfold _process_drop, bind.
      rewrite (pop_stream_present _ _ _ Hget).
      unfold drop, bind, emit, ret. rewrite join_spec.
      unfold popped_world. rewrite !log_log. reflexivity.
    + destruct (popped_world_facts (_stream_id action)
                  [EvUnregister (_stream_id action) (_oid s);
                   EvDropFlag (_oid s); EvJoin (_oid s)] w Hwf)
        as (H1 & H2 & H3 & _).
      repeat split; assumption.
Qed.

Lemma drop_detaches_then_joins_witness :
  _action (drop_stream "b") = "drop"
  /\ has_stream "zz" (mux (world_with two_pending)) = false
  /\ _process_action sample_internal 0 (drop_stream "zz")
       (world_with two_pending)
     = Raise (KeyError "zz") (world_with two_pending)
  /\ trace (final_world
              (_process_action sample_internal 0 (drop_stream "b")
                 (world_with two_pending)))
     = [EvUnregister "b" 1; EvDropFlag 1; EvJoin 1].
Proof.
  split; [reflexivity|]. split; [reflexivity|]. split.
  - exact (proj1 (drop_detaches_then_joins sample_internal 0
                    (drop_stream "zz") (world_with two_pending) eq_refl)
             eq_refl).
  - destruct (proj2 (drop_detaches_then_joins sample_internal 0
                       (drop_stream "b") (world_with two_pending) eq_refl)
                _ two_pending_wf eq_refl) as (Hrun & _).
    rewrite Hrun. reflexivity.
Defined.

(** ** Adding and then removing *)

Lemma set_streams_back m d : set_streams (_streams m) (set_streams d m) = m.
Proof. now destruct m. Qed.

(** X4: adding an id that is not registered and then removing it gives back
    the supervisor as it was, when the worker acknowledges the status probe
    and its thread exits: the context is started, registered, unregistered
    and joined, in this order. *)
Theorem add_then_del_restores_supervisor :
  forall wandb_internal fuel sid settings w,
    has_stream sid (mux w) = false ->
    status_reply (wandb_internal settings (_port (mux w)) (_pid (mux w)))
    = true ->
    thread_exits (wandb_internal settings (_port (mux w)) (_pid (mux w)))
    = true ->
    exists w',
      (_process_action wandb_internal fuel (add_stream sid settings) ;;
       _process_action wandb_internal fuel (del_stream sid)) w
      = Ok tt w'
      /\ mux w' = mux w
      /\ trace w'
         = trace w ++ [EvThreadStart (next_oid w); EvStatus (next_oid w) true;
                       EvRegister sid (next_oid w);
                       EvUnregister sid (next_oid w); EvJoin (next_oid w)].
Proof.
  intros wi fuel sid settings w Habs Hs Hx.
  unfold bind at 1.
  rewrite dispatch_add by reflexivity. rewrite process_add_spec.
  cbv zeta. simpl. rewrite Hs.
  rewrite dispatch_del by reflexivity. unfold _process_del, bind.
  erewrite pop_stream_present by (simpl; apply DictFacts.get_set_same).
  rewrite join_spec. unfold joinable. simpl. rewrite Hx.
  eexists. split; [reflexivity|]. simpl. split.
  - rewrite remove_set_absent
      by (now apply DictFacts.contains_false_notin).
    apply set_streams_back.
  - rewrite <- !app_assoc. reflexivity.
Qed.

Lemma add_then_del_restores_supervisor_witness :
  has_stream "c" (mux (world_with two_pending)) = false
  /\ status_reply (sample_internal cfg1 None None) = true
  /\ thread_exits (sample_internal cfg1 None None) = true
  /\ exists w',
       (_process_action sample_internal 0 (add_stream "c" cfg1) ;;
        _process_action sample_internal 0 (del_stream "c"))
         (world_with two_pending)
       = Ok tt w'
       /\ mux w' = mux (world_with two_pending).
Proof.
  split; [reflexivity|]. split; [reflexivity|]. split; [reflexivity|].
  destruct (add_then_del_restores_supervisor sample_internal 0 "c" cfg1
              (world_with two_pending) eq_refl eq_refl eq_refl)
    as (w' & Hrun & Hmux & _).
  exists w'. split; assumption.
Defined.

(** X5: adding an id that is registered and then removing it once leaves
    the id unregistered: the add put a new context in the place of the
    registered one, the del takes the new one out and joins it, and the
    context registered before is joined by neither. *)
Theorem readd_then_del_unregisters :
  forall wandb_internal fuel sid settings w,
    Dict.wf (_streams (mux w)) ->
    has_stream sid (mux w) = true ->
    status_reply (wandb_internal settings (_port (mux w)) (_pid (mux w)))
    = true ->
    thread_exits (wandb_internal settings (_port (mux w)) (_pid (mux w)))
    = true ->
    exists w',
      (_process_action wandb_internal fuel (add_stream sid settings) ;;
       _process_action wandb_internal fuel (del_stream sid)) w
      = Ok tt w'
      /\ has_stream sid (mux w') = false
      /\ stream_names (mux w')
         = filter (fun k => negb (String.eqb k sid)) (stream_names (mux w))
      /\ trace w'
         = trace w ++ [EvThreadStart (next_oid w); EvStatus (next_oid w) true;
                       EvRegister sid (next_oid w);
                       EvUnregister sid (next_oid w); EvJoin (next_oid w)].
Proof.
  intros wi fuel sid settings w Hwf Hin Hs Hx.
  unfold bind at 1.
  rewrite dispatch_add by reflexivity. rewrite process_add_spec.
  cbv zeta. simpl. rewrite Hs.
  rewrite dispatch_del by reflexivity. unfold _process_del, bind.
  erewrite pop_stream_present by (simpl; apply DictFacts.get_set_same).
  rewrite join_spec. unfold joinable. simpl. rewrite Hx.
  eexists. split; [reflexivity|].
  unfold has_stream, stream_names. simpl.
  split; [apply contains_remove; now apply wf_set|].
  split.
  - rewrite keys_remove by (now apply wf_set).
    rewrite DictFacts.keys_set_in; [reflexivity|].
    now apply contains_iff_in.
  - rewrite <- !app_assoc. reflexivity.
Qed.

Lemma readd_then_del_unregisters_witness :
  Dict.wf (_streams (mux (world_with two_pending)))
  /\ has_stream "a" (mux (world_with two_pending)) = true
  /\ status_reply (sample_internal cfg2 None None) = true
  /\ thread_exits (sample_internal cfg2 None None) = true
  /\ exists w',
       (_process_action sample_internal 0 (add_stream "a" cfg2) ;;
        _process_action sample_internal 0 (del_stream "a"))
         (world_with two_pending)
       = Ok tt w'
       /\ has_stream "a" (mux w') = false.
Proof.
  split; [exact two_pending_wf|]. split; [reflexivity|].
  split; [reflexivity|]. split; [reflexivity|].
  destruct (readd_then_del_unregisters sample_internal 0 "a" cfg2
              (world_with two_pending) two_pending_wf eq_refl eq_refl eq_refl)
    as (w' & Hrun & Habs & _).
  exists w'. split; assumption.
Defined.

(** ** Unsupported kinds, and what actions leave alone *)

(** X6: an action whose kind is none of add, del, drop and teardown
    raises [AssertionError] naming the kind and changes nothing;
    taken off the queue by the control loop, it ends [_loop] with that
    error, its completion signal unset. *)
Theorem unsupported_action_aborts_loop :
  forall wandb_internal fuel action w,
    supported_kind (_action action) = false ->
    _process_action wandb_internal fuel action w
    = Raise (AssertionError ("Unsupported action: " ++ _action action)) w
    /\ (forall e rest w0,
          _stopped (mux w0) = false ->
          loop_head e w0 = Ok (Some action) w ->
          _loop wandb_internal fuel (e :: rest) w0
          = Raise (AssertionError ("Unsupported action: " ++ _action action))
              w).
Proof.
  intros wi fuel action w Hk.
  assert (Hp : _process_action wi fuel action w
               = Raise (AssertionError
                          ("Unsupported action: " ++ _action action)) w).
  { unfold supported_kind in Hk.
    apply orb_false_elim in Hk as [Hk H4].
    apply orb_false_elim in Hk as [Hk H3].
    apply orb_false_elim in Hk as [H1 H2].
    unfold _process_action. now rewrite H1, H2, H3, H4. }
  split; [exact Hp|].
  intros e rest w0 Hns Hhead. simpl. rewrite Hns. unfold bind at 1.
  rewrite (loop_body_unfold wi fuel e w0 _ w Hhead), Hp. reflexivity.
Qed.

Lemma unsupported_action_aborts_loop_witness :
  supported_kind (_action (mkStreamAction "pause" "a" NoData)) = false
  /\ _loop sample_internal 0
       [calm [mkStreamAction "pause" "a" NoData; teardown 0]; calm []]
       world_init
     = Raise (AssertionError "Unsupported action: pause")
         (final_world
            (loop_head (calm [mkStreamAction "pause" "a" NoData; teardown 0])
               world_init)).
Proof.
  split; [reflexivity|].
  exact (proj2 (unsupported_action_aborts_loop sample_internal 0
                  (mkStreamAction "pause" "a" NoData)
                  (final_world
                     (loop_head
                        (calm [mkStreamAction "pause" "a" NoData; teardown 0])
                        world_init))
                  eq_refl)
           (calm [mkStreamAction "pause" "a" NoData; teardown 0]) [calm []]
           world_init eq_refl eq_refl).
Defined.

(** X7: however it ends, the processing of an action leaves the port, the
    owner pid, the action queue and the last-check timestamp alone and
    never lowers the stop flag; an action other than a teardown leaves the
    stop flag as it is and neither clears the map nor touches the queue or
    a completion signal. *)
Theorem actions_leave_control_state :
  forall wandb_internal fuel action w,
    let w' := final_world (_process_action wandb_internal fuel action w) in
    same_config (mux w) (mux w')
    /\ (_stopped (mux w) = true -> _stopped (mux w') = true)
    /\ (_action action <> "teardown" ->
        _stopped (mux w') = _stopped (mux w)
        /\ exists evs,
             trace w' = trace w ++ evs
             /\ forallb is_action_effect evs = true).
Proof.
  intros wi fuel action w w'. subst w'.
  destruct (process_action_shape wi fuel action w)
    as (Hcfg & evs & Heff & Hcase).
  split; [exact Hcfg|]. split.
  - intros Hs. destruct Hcase as [[_ Hst]|(_ & _ & _ & Hst & _)]; congruence.
  - intros Hne. destruct Hcase as [[Htr Hst]|(Hk & _)]; [|contradiction].
    split; [exact Hst|]. exists evs. now split.
Qed.

Lemma actions_leave_control_state_witness :
  _action (del_stream "a") <> "teardown"
  /\ _stopped
       (mux (final_world
               (_process_action sample_internal 0 (del_stream "a")
                  (world_with two_pending))))
     = _stopped (mux (world_with two_pending)).
Proof.
  split; [discriminate|].
  destruct (actions_leave_control_state sample_internal 0 (del_stream "a")
              (world_with two_pending)) as (_ & _ & H).
  destruct H as [Hst _]; [discriminate|exact Hst].
Defined.

(** X8: a teardown over an empty map needs no polling pass: for any fuel
    it returns at once, publishes, polls, joins and logs nothing, and
    leaves the map empty and the stop flag set. *)
Theorem teardown_of_empty_map :
  forall wandb_internal fuel action w,
    _action action = "teardown" ->
    _streams (mux w) = [] ->
    _process_action wandb_internal fuel action w
    = Ok tt
        (log [EvClear; EvStop]
           (mkWorld (set_stopped true (set_streams Dict.empty (mux w)))
              (trace w) (next_oid w))).
Proof.
  intros wi fuel action w Hk He.
  rewrite dispatch_teardown by exact Hk.
  rewrite process_teardown_unfold, He. reflexivity.
Qed.

Lemma teardown_of_empty_map_witness :
  _action (teardown 3) = "teardown"
  /\ _streams (mux world_init) = []
  /\ trace (final_world
              (_process_action sample_internal 0 (teardown 3) world_init))
     = [EvClear; EvStop].
Proof.
  split; [reflexivity|]. split; [reflexivity|].
  rewrite (teardown_of_empty_map sample_internal 0 (teardown 3) world_init
             eq_refl eq_refl).
  reflexivity.
Defined.

(** ** How many polling passes the drain takes *)

Lemma drained_all_done_within n : forall l,
  drained n l = true ->
  forallb (fun p => done_within n (snd p)) l = true.
Proof.
  induction n as [|n IH]; intros l H.
  - destruct l; [reflexivity|discriminate].
  - destruct l as [|p l]; [reflexivity|].
    change (drained n (survivors (p :: l)) = true) in H.
    specialize (IH _ H). rewrite forallb_forall in *.
    intros [sid s] Hin. simpl.
    destruct (in_pending_split _ _ _ Hin) as [[E _]|[E Hs]].
    + now rewrite E.
    + rewrite E. simpl. exact (IH _ Hs).
Qed.

(** X9: when every worker thread exits, the drain protocol returns within
    [fuel] polling passes exactly when every context of its input answers
    done to one of its first [fuel] polls: it takes as many passes as the
    slowest context needs polls, however many contexts there are. *)
Theorem drain_takes_the_slowest_context :
  forall fuel l code w,
    Dict.wf l ->
    forallb joinable (Dict.values l) = true ->
    (exists w', _finish_all fuel l code w = Ok tt w')
    <-> forallb (fun p => done_within fuel (snd p)) l = true.
Proof.
  intros fuel l code w Hwf Hj. split.
  - intros [w' Hrun]. rewrite finish_all_spec in Hrun by exact Hwf.
    destruct l as [|p l]; [reflexivity|].
    apply drained_all_done_within.
    destruct (drained fuel (p :: l)); [reflexivity|discriminate].
  - intros Hd.
    destruct (finish_all_returns fuel l code w Hwf Hd Hj) as [evs Hrun].
    eauto.
Qed.

Lemma drain_takes_the_slowest_context_witness :
  Dict.wf two_pending
  /\ forallb joinable (Dict.values two_pending) = true
  /\ (exists w',
        _finish_all 3 two_pending (ExitCode 0) (world_with two_pending)
        = Ok tt w')
  /\ ~ (exists w',
          _finish_all 2 two_pending (ExitCode 0) (world_with two_pending)
          = Ok tt w').
Proof.
  split; [exact two_pending_wf|]. split; [reflexivity|]. split.
  - apply (drain_takes_the_slowest_context 3 two_pending (ExitCode 0)
             (world_with two_pending) two_pending_wf eq_refl).
    reflexivity.
  - intros H.
    apply (drain_takes_the_slowest_context 2 two_pending (ExitCode 0)
             (world_with two_pending) two_pending_wf eq_refl) in H.
    discriminate H.
Defined.

(** ** The queue is served in order *)

Lemma gets_of_app l l' : gets_of (l ++ l') = gets_of l ++ gets_of l'.
Proof.
  induction l as [|e l IH]; simpl; [reflexivity|].
  destruct e; simpl; now rewrite ?IH.
Qed.

Lemma gets_of_effects evs :
  forallb is_action_effect evs = true -> gets_of evs = [].
Proof.
  induction evs as [|e evs IH]; simpl; [reflexivity|].
  intros H. apply andb_prop in H as [He Hl].
  destruct e; simpl in *; try discriminate; auto.
Qed.

Lemma gets_of_orphan orph : orphan_events orph -> gets_of orph = [].
Proof. intros H. now destruct H. Qed.

Lemma check_orphaned_returns now table w :
  exists b w0,
    _check_orphaned now table w = Ok b w0
    /\ _action_q (mux w0) = _action_q (mux w).
Proof.
  unfold _check_orphaned, bind, get_mux.
  destruct (_pid (mux w)) as [pid|]; [|now eauto].
  destruct (negb (pid_truthy (Some pid))); [now eauto|].
  destruct (throttled (_pid_checked_ts (mux w)) now); [now eauto|].
  simpl. eauto.
Qed.

Lemma enqueue_get_items l w got w1 :
  (enqueue l ;; queue_get) w = Ok got w1 ->
  got_list got ++ items (_action_q (mux w1)) = items (_action_q (mux w)) ++ l.
Proof.
  unfold bind at 1. rewrite enqueue_spec.
  unfold queue_get, bind, get_mux, put_mux, emit. simpl.
  destruct (items (_action_q (mux w)) ++ l) as [|a r]; simpl;
    intros H; inversion H; reflexivity.
Qed.

Lemma loop_head_queue e w got w1 :
  loop_head e w = Ok got w1 ->
  got_list got ++ items (_action_q (mux w1))
  = items (_action_q (mux w)) ++ arrivals e.
Proof.
  unfold loop_head. unfold bind at 1.
  destruct (check_orphaned_returns (time_now e) (pid_exists e) w)
    as (b & w0 & -> & Hq).
  rewrite <- Hq. destruct b.
  - unfold bind at 1. unfold bind at 1. unfold get_mux, put_mux, emit. simpl.
    intros H. apply enqueue_get_items in H. exact H.
  - unfold bind at 1. unfold ret. apply enqueue_get_items.
Qed.

Section Fifo.
Variable wandb_internal : Data -> option Z -> option Z -> Worker.

Lemma process_action_gets fuel action w :
  exists evs,
    trace (final_world (_process_action wandb_internal fuel action w))
    = trace w ++ evs
    /\ gets_of evs = []
    /\ _action_q (mux (final_world
                         (_process_action wandb_internal fuel action w)))
       = _action_q (mux w).
Proof.
  destruct (process_action_shape wandb_internal fuel action w)
    as ((_ & _ & Hq & _) & evs & Heff & Hcase).
  destruct Hcase as [[Htr _]|(_ & _ & Htr & _)].
  - exists evs. split; [exact Htr|]. split; [|exact Hq].
    now apply gets_of_effects.
  - exists (evs ++ [EvClear; EvStop]). split; [exact Htr|].
    split; [|exact Hq].
    rewrite gets_of_app, gets_of_effects by exact Heff. reflexivity.
Qed.

Lemma loop_body_fifo fuel e w :
  exists evs,
    trace (final_world (loop_body wandb_internal fuel e w)) = trace w ++ evs
    /\ gets_of evs
         ++ items (_action_q
                     (mux (final_world (loop_body wandb_internal fuel e w))))
       = items (_action_q (mux w)) ++ arrivals e.
Proof.
  destruct (loop_head_shape e w)
    as (got & w1 & orph & Hh & Ht1 & _ & _ & Ho & _).
  pose proof (loop_head_queue e w got w1 Hh) as Hq.
  rewrite (loop_body_unfold wandb_internal fuel e w got w1 Hh).
  destruct got as [action|].
  - destruct (process_action_gets fuel action w1) as (evs & Htr & Hg & Hsame).
    assert (Hpre : gets_of (orph ++ [EvGet action] ++ evs) = [action]).
    { rewrite !gets_of_app, (gets_of_orphan orph Ho), Hg. reflexivity. }
    destruct (_process_action wandb_internal fuel action w1)
      as [[] w2|ex w2|w2|w2]; simpl in Htr, Hsame;
      try (exists (orph ++ [EvGet action] ++ evs); simpl final_world;
           rewrite Htr, Ht1, Hpre, Hsame, <- !app_assoc;
           split; [reflexivity|exact Hq]).
    rewrite handled_spec.
    destruct (unfinished_tasks (_action_q (mux w2))); simpl.
    + exists ((orph ++ [EvGet action] ++ evs) ++ [EvSetHandled action]).
      rewrite Htr, Ht1, gets_of_app, Hpre, Hsame, <- !app_assoc.
      split; [reflexivity|exact Hq].
    + exists ((orph ++ [EvGet action] ++ evs)
              ++ [EvSetHandled action; EvTaskDone]).
      rewrite Htr, Ht1, gets_of_app, Hpre, Hsame, <- !app_assoc.
      split; [reflexivity|exact Hq].
  - exists orph. simpl in *. rewrite Ht1, app_nil_r, (gets_of_orphan orph Ho).
    split; [reflexivity|exact Hq].
Qed.

Lemma loop_fifo fuel sched : forall w,
  exists evs n,
    n <= List.length sched
    /\ trace (final_world (_loop wandb_internal fuel sched w)) = trace w ++ evs
    /\ gets_of evs
         ++ items (_action_q
                     (mux (final_world (_loop wandb_internal fuel sched w))))
       = items (_action_q (mux w)) ++ arrived n sched.
Proof.
  induction sched as [|e rest IH]; intros w.
  - exists [], 0. unfold arrived. simpl.
    destruct (_stopped (mux w)).
    + rewrite queue_join_spec. destruct (Nat.eqb _ 0); simpl;
        rewrite !app_nil_r; auto.
    + simpl. rewrite !app_nil_r. auto.
  - destruct (_stopped (mux w)) eqn:Hs.
    + exists [], 1. rewrite loop_stopped by exact Hs. cbv zeta.
      unfold arrived. simpl.
      destruct (Nat.eqb _ 0); simpl; rewrite !app_nil_r;
        (split; [lia|split; reflexivity]).
    + rewrite loop_running by exact Hs.
      destruct (loop_body_fifo fuel e w) as (evs & Htr & Hq).
      destruct (loop_body wandb_internal fuel e w) as [[] w'|ex w'|w'|w'];
        simpl in Htr, Hq;
        try (exists evs, 1; unfold arrived; simpl; rewrite app_nil_r;
             split; [lia|split; assumption]).
      destruct (IH w') as (evs' & n & Hn & Htr' & Hq').
      exists (evs ++ evs'), (S n). split; [simpl; lia|].
      rewrite Htr', Htr, <- app_assoc. split; [reflexivity|].
      rewrite gets_of_app, <- app_assoc, Hq'.
      unfold arrived. simpl. rewrite !app_assoc. now rewrite Hq.
Qed.
End Fifo.

(** X10: the control loop serves the queue in order and loses nothing: at
    any end of a run of [_loop], the actions taken off the queue, in the
    order they were taken, followed by the actions still queued, are the
    actions queued at the start followed by the arrivals of the turns
    taken, in the order of their arrival. *)
Theorem loop_serves_queue_in_order :
  forall wandb_internal fuel sched w,
    exists evs n,
      n <= List.length sched
      /\ trace (final_world (_loop wandb_internal fuel sched w))
         = trace w ++ evs
      /\ gets_of evs
           ++ items (_action_q
                       (mux (final_world
                               (_loop wandb_internal fuel sched w))))
         = items (_action_q (mux w)) ++ arrived n sched.
Proof. intros. apply loop_fifo. Qed.

(** ** When [_loop] returns *)

Section Returns.
Variable wandb_internal : Data -> option Z -> option Z -> Worker.

Lemma loop_body_queue_ok fuel e w w' :
  queue_ok (_action_q (mux w)) ->
  loop_body wandb_internal fuel e w = Ok tt w' ->
  queue_ok (_action_q (mux w')).
Proof.
  intros Hq Hrun.
  destruct (loop_head_shape e w)
    as (got & w1 & orph & Hh & _ & _ & _ & _ & _ & _ & Hq1).
  destruct (Hq1 Hq) as [Hok Hpos].
  rewrite (loop_body_unfold wandb_internal fuel e w got w1 Hh) in Hrun.
  destruct got as [action|].
  - specialize (Hpos ltac:(discriminate)).
    destruct (process_action_shape wandb_internal fuel action w1)
      as ((_ & _ & Hsame & _) & _).
    destruct (_process_action wandb_internal fuel action w1)
      as [[] w2|ex w2|w2|w2]; try discriminate.
    simpl in Hsame. rewrite handled_spec, Hsame in Hrun.
    destruct (unfinished_tasks (_action_q (mux w1))) as [|n] eqn:Hn;
      [discriminate|].
    inversion Hrun; subst w'. unfold queue_ok. simpl. lia.
  - inversion Hrun; subst w'. exact Hok.
Qed.

Lemma loop_returns_drained fuel sched : forall w w',
  queue_ok (_action_q (mux w)) ->
  _loop wandb_internal fuel sched w = Ok tt w' ->
  _stopped (mux w') = true
  /\ items (_action_q (mux w')) = []
  /\ unfinished_tasks (_action_q (mux w')) = 0.
Proof.
  induction sched as [|e rest IH]; intros w w' Hq Hrun.
  - simpl in Hrun. destruct (_stopped (mux w)) eqn:Hs; [|discriminate].
    rewrite queue_join_spec in Hrun.
    destruct (Nat.eqb_spec (unfinished_tasks (_action_q (mux w))) 0)
      as [Hz|]; [|discriminate].
    inversion Hrun; subst w'. unfold queue_ok in Hq. rewrite Hz in Hq.
    repeat split; auto.
    destruct (items (_action_q (mux w))); [reflexivity|simpl in Hq; lia].
  - destruct (_stopped (mux w)) eqn:Hs.
    + rewrite loop_stopped in Hrun by exact Hs. cbv zeta in Hrun.
      destruct (Nat.eqb_spec
                  (unfinished_tasks (final_queue (e :: rest) (_action_q (mux w))))
                  0) as [Hz|]; [|discriminate].
      inversion Hrun; subst w'. simpl in *. unfold queue_ok in Hq.
      repeat split; auto.
      destruct (items (_action_q (mux w)) ++ arrivals e) eqn:E;
        [reflexivity|].
      apply (f_equal (@List.length _)) in E. rewrite length_app in E.
      simpl in E. lia.
    + simpl in Hrun. rewrite Hs in Hrun. unfold bind in Hrun.
      destruct (loop_body wandb_internal fuel e w) as [[] w1|ex w1|w1|w1] eqn:Hb;
        try discriminate.
      apply (IH w1 w'); [|exact Hrun].
      eapply loop_body_queue_ok; eauto.
Qed.
End Returns.

(** X11: [_loop] returns only from its final [join], with the stop flag
    set, no action left on the queue and no task unfinished: every action
    that was put on the queue before has been taken off it and its
    processing has returned.  The queue counts at least its queued items
    as unfinished, as every [queue.Queue] does. *)
Theorem loop_returns_only_when_queue_is_served :
  forall wandb_internal fuel sched w w',
    queue_ok (_action_q (mux w)) ->
    _loop wandb_internal fuel sched w = Ok tt w' ->
    _stopped (mux w') = true
    /\ items (_action_q (mux w')) = []
    /\ unfinished_tasks (_action_q (mux w')) = 0.
Proof. intros wi fuel sched w w'. apply loop_returns_drained. Qed.

Lemma loop_returns_only_when_queue_is_served_witness :
  queue_ok (_action_q (mux world_init))
  /\ exists w',
       _loop sample_internal 0 [calm [teardown 0]; calm []] world_init
       = Ok tt w'
       /\ items (_action_q (mux w')) = []
       /\ unfinished_tasks (_action_q (mux w')) = 0.
Proof.
  assert (Hq : queue_ok (_action_q (mux world_init)))
    by (unfold queue_ok; simpl; lia).
  split; [exact Hq|].
  destruct (_loop sample_internal 0 [calm [teardown 0]; calm []] world_init)
    as [[] w'|ex w'|w'|w'] eqn:Hrun;
    try (vm_compute in Hrun; discriminate Hrun).
  exists w'. split; [reflexivity|].
  exact (proj2 (loop_returns_only_when_queue_is_served sample_internal 0
                  [calm [teardown 0]; calm []] world_init w' Hq Hrun)).
Defined.

(** ** The abrupt path *)

Section Abrupt.
Variable wandb_internal : Data -> option Z -> option Z -> Worker.

Lemma loop_stopped_streams fuel sched w :
  _stopped (mux w) = true ->
  _streams (mux (final_world (_loop wandb_internal fuel sched w)))
  = _streams (mux w)
  /\ _stopped (mux (final_world (_loop wandb_internal fuel sched w))) = true.
Proof.
  intros Hs. rewrite loop_stopped by exact Hs. cbv zeta.
  destruct (Nat.eqb _ 0); simpl; now split.
Qed.

Lemma orphan_stop_run fuel e rest w pid :
  _stopped (mux w) = false ->
  _pid (mux w) = Some pid -> pid <> 0%Z ->
  throttled (_pid_checked_ts (mux w)) (time_now e) = false ->
  pid_exists e pid = false ->
  items (_action_q (mux w)) = [] ->
  arrivals e = [] ->
  trace (final_world (_loop wandb_internal fuel (e :: rest) w))
  = trace w ++ [EvPidProbe pid false; EvStop]
  /\ _streams (mux (final_world (_loop wandb_internal fuel (e :: rest) w)))
     = _streams (mux w)
  /\ _stopped (mux (final_world (_loop wandb_internal fuel (e :: rest) w)))
     = true.
Proof.
  intros Hs Hpid Hnz Ht Hgone Hitems Harr.
  rewrite loop_running by exact Hs.
  destruct (loop_head_orphaned e w pid Hpid Hnz Ht Hgone)
    as (got & w1 & Hh & Hs1 & Ht1).
  pose proof (loop_head_queue e w got w1 Hh) as Hq.
  rewrite Hitems, Harr in Hq. simpl in Hq.
  destruct got as [a|]; [discriminate|].
  destruct (loop_head_shape e w)
    as (got' & w1' & orph & Hh' & _ & _ & Hstr & _).
  rewrite Hh in Hh'. inversion Hh'; subst got' w1'.
  rewrite (loop_body_unfold wandb_internal fuel e w None w1 Hh).
  destruct (loop_stopped_streams fuel rest w1 Hs1) as [Hstr' Hst'].
  rewrite loop_stopped_trace by exact Hs1.
  rewrite Hstr', Hst', Hstr, Ht1. simpl. now repeat split.
Qed.
End Abrupt.

(** X12: when the orphan check finds the owner gone and no action is
    queued, the control loop stops without draining: the stop flag is set,
    [_loop] goes to its final [join], and the registered contexts stay in
    the map, with no exit code published to them and none of them polled
    or joined. *)
Theorem orphan_stop_skips_drain :
  forall wandb_internal fuel e rest w pid,
    _stopped (mux w) = false ->
    _pid (mux w) = Some pid -> pid <> 0%Z ->
    throttled (_pid_checked_ts (mux w)) (time_now e) = false ->
    pid_exists e pid = false ->
    items (_action_q (mux w)) = [] ->
    arrivals e = [] ->
    trace (final_world (_loop wandb_internal fuel (e :: rest) w))
    = trace w ++ [EvPidProbe pid false; EvStop]
    /\ _streams (mux (final_world (_loop wandb_internal fuel (e :: rest) w)))
       = _streams (mux w)
    /\ _stopped (mux (final_world (_loop wandb_internal fuel (e :: rest) w)))
       = true.
Proof. intros wi fuel e rest w pid. apply orphan_stop_run. Qed.

Lemma orphan_stop_skips_drain_witness :
  _stopped (mux (owned_world 7)) = false
  /\ _pid (mux (owned_world 7)) = Some 7%Z
  /\ 7%Z <> 0%Z
  /\ throttled (_pid_checked_ts (mux (owned_world 7))) 5%float = false
  /\ stream_names
       (mux (final_world
               (_loop sample_internal 3 [orphaned_turn 5%float []; calm []]
                  (owned_world 7))))
     = ["a"; "b"].
Proof.
  assert (Hnz : 7%Z <> 0%Z) by discriminate.
  split; [reflexivity|]. split; [reflexivity|]. split; [exact Hnz|].
  split; [reflexivity|].
  destruct (orphan_stop_skips_drain sample_internal 3 (orphaned_turn 5%float [])
              [calm []] (owned_world 7) 7%Z
              eq_refl eq_refl Hnz eq_refl eq_refl eq_refl eq_refl)
    as (_ & Hstr & _).
  unfold stream_names. rewrite Hstr. reflexivity.
Defined.

(** ** Two orphan checks in a row *)

(** X13: of two orphan checks in a row, the second is throttled by the
    timestamp the first recorded: when the first probes at the clock
    reading [t1], other than 0.0, and [t2 < t1 + 2] holds in float
    arithmetic, the second returns False without probing, whatever has
    become of the owner, and the timestamp stays at [t1]. *)
Theorem second_check_within_interval_is_silent :
  forall t1 t2 table1 table2 w pid,
    _pid (mux w) = Some pid -> pid <> 0%Z ->
    throttled (_pid_checked_ts (mux w)) t1 = false ->
    float_truthy t1 = true ->
    PrimFloat.ltb t2 (PrimFloat.add t1 2%float) = true ->
    (_check_orphaned t1 table1 ;; _check_orphaned t2 table2) w
    = Ok false
        (log [EvPidProbe pid (table1 pid)]
           (mkWorld (set_pid_checked_ts (Some t1) (mux w)) (trace w)
              (next_oid w))).
Proof.
  intros t1 t2 table1 table2 w pid Hpid Hnz Ht Ht1 Hlt.
  unfold bind. rewrite (check_orphaned_probes _ _ _ _ Hpid Hnz Ht).
  apply (check_orphaned_throttled _ _ _ pid); [exact Hpid|].
  simpl. now apply throttled_true.
Qed.

Lemma second_check_within_interval_is_silent_witness :
  _pid (mux (world_with_pid 7)) = Some 7%Z
  /\ 7%Z <> 0%Z
  /\ throttled (_pid_checked_ts (mux (world_with_pid 7))) 10%float = false
  /\ float_truthy 10%float = true
  /\ PrimFloat.ltb 11%float (PrimFloat.add 10%float 2%float) = true
  /\ (_check_orphaned 10%float (fun _ => true) ;;
      _check_orphaned 11%float (fun _ => false)) (world_with_pid 7)
     = Ok false (mkWorld (set_pid_checked_ts (Some 10%float)
                            (set_pid 7 StreamMux_init))
                   [EvPidProbe 7 true] 0).
Proof.
  assert (Hnz : 7%Z <> 0%Z) by discriminate.
  split; [reflexivity|]. split; [exact Hnz|]. split; [reflexivity|].
  split; [reflexivity|]. split; [reflexivity|].
  exact (second_check_within_interval_is_silent 10%float 11%float
           (fun _ => true) (fun _ => false) (world_with_pid 7) 7%Z
           eq_refl Hnz eq_refl eq_refl eq_refl).
Defined.

(** ** Distinct ids *)

(** X14: the registered ids stay distinct: whatever action is processed
    and however a run of the control loop ends, the listing of the ids
    holds each id once. *)
Theorem registered_ids_stay_distinct :
  forall wandb_internal fuel w,
    NoDup (stream_names (mux w)) ->
    (forall action,
       NoDup (stream_names
                (mux (final_world
                        (_process_action wandb_internal fuel action w)))))
    /\ (forall sched,
          NoDup (stream_names
                   (mux (final_world (_loop wandb_internal fuel sched w))))).
Proof.
  intros wi fuel w Hwf.
  assert (Hset : forall k s (d : Dict.t StreamRecord),
             communicate_status s = true -> Dict.wf d ->
             Dict.wf (Dict.set k s d))
    by (intros k s d _; apply wf_set).
  assert (Hrem : forall k (d : Dict.t StreamRecord),
             Dict.wf d -> Dict.wf (Dict.remove k d))
    by (intros k d; apply wf_remove).
  assert (Hemp : Dict.wf (@Dict.empty StreamRecord)) by constructor.
  split.
  - intros action.
    exact (process_action_keeps wi Dict.wf Hemp Hset Hrem fuel action w Hwf).
  - intros sched.
    exact (loop_keeps wi Dict.wf Hemp Hset Hrem fuel sched w Hwf).
Qed.

Lemma registered_ids_stay_distinct_witness :
  NoDup (stream_names (mux (world_with two_pending)))
  /\ NoDup (stream_names
              (mux (final_world
                      (_loop sample_internal 3
                         [calm [add_stream "a" cfg2; add_stream "c" cfg1;
                                del_stream "b"]; calm []; calm []; calm []]
                         (world_with two_pending))))).
Proof.
  split; [exact two_pending_wf|].
  exact (proj2 (registered_ids_stay_distinct sample_internal 3
                  (world_with two_pending) two_pending_wf) _).
Defined.

(** ** Idle turns *)

Section Idle.
Variable wandb_internal : Data -> option Z -> option Z -> Worker.

Lemma idle_turn_is_silent fuel e w :
  pid_truthy (_pid (mux w)) = false ->
  items (_action_q (mux w)) = [] ->
  arrivals e = [] ->
  loop_body wandb_internal fuel e w = Ok tt w.
Proof.
  intros Hp Hi Ha.
  assert (Hh : loop_head e w = Ok None w).
  { unfold loop_head. unfold bind at 1.
    rewrite (check_orphaned_disabled _ _ _ Hp).
    unfold bind at 1. unfold ret. unfold bind at 1.
    rewrite enqueue_spec, Ha, app_nil_r, Nat.add_0_r.
    assert (Hq : mkActionQueue (items (_action_q (mux w)))
                   (unfinished_tasks (_action_q (mux w)))
                 = _action_q (mux w))
      by (now destruct (_action_q (mux w))).
    rewrite Hq, set_action_q_same, world_eta.
    unfold queue_get, bind, get_mux. now rewrite Hi. }
  now rewrite (loop_body_unfold wandb_internal fuel e w None w Hh).
Qed.

Lemma idle_loop fuel sched : forall w,
  _stopped (mux w) = false ->
  pid_truthy (_pid (mux w)) = false ->
  items (_action_q (mux w)) = [] ->
  Forall quiet_turn sched ->
  _loop wandb_internal fuel sched w = OutOfFuel w.
Proof.
  induction sched as [|e rest IH]; intros w Hs Hp Hi Hq; simpl; rewrite Hs.
  - reflexivity.
  - inversion Hq; subst. unfold bind.
    rewrite idle_turn_is_silent by assumption. now apply IH.
Qed.
End Idle.

(** X15: with no owner pid (or pid 0), the stop flag down and nothing
    queued, a turn of the control loop in which nothing arrives changes
    nothing and records nothing; the loop goes on turning like this for as
    long as nothing arrives, and does not return. *)
Theorem idle_loop_changes_nothing :
  forall wandb_internal fuel sched w,
    _stopped (mux w) = false ->
    _pid (mux w) = None \/ _pid (mux w) = Some 0%Z ->
    items (_action_q (mux w)) = [] ->
    Forall quiet_turn sched ->
    _loop wandb_internal fuel sched w = OutOfFuel w.
Proof.
  intros wi fuel sched w Hs Hpid Hi Hq.
  apply idle_loop; auto.
  destruct Hpid as [-> | ->]; reflexivity.
Qed.

Lemma idle_loop_changes_nothing_witness :
  _stopped (mux (world_with two_pending)) = false
  /\ (_pid (mux (world_with two_pending)) = None
      \/ _pid (mux (world_with two_pending)) = Some 0%Z)
  /\ items (_action_q (mux (world_with two_pending))) = []
  /\ Forall quiet_turn [calm []; orphaned_turn 9%float []; calm []]
  /\ _loop sample_internal 0 [calm []; orphaned_turn 9%float []; calm []]
       (world_with two_pending)
     = OutOfFuel (world_with two_pending).
Proof.
  assert (Hq : Forall quiet_turn [calm []; orphaned_turn 9%float []; calm []])
    by (repeat constructor).
  split; [reflexivity|]. split; [left; reflexivity|].
  split; [reflexivity|]. split; [exact Hq|].
  exact (idle_loop_changes_nothing sample_internal 0
           [calm []; orphaned_turn 9%float []; calm []] (world_with two_pending)
           eq_refl (or_introl eq_refl) eq_refl Hq).
Defined.
